(** * Order endpoint [app/api/orders/[id]/route.ts]: GET and PUT handlers

    A shallow embedding of the two route handlers and of the JavaScript
    primitives they rely on, followed by the properties of the endpoint.

    Layout:
    - [JS]      : strings, numbers, primitive values, [parseInt], [Number],
                  truthiness and [&&];
    - [Store]   : the statements the handlers send to [executeQuery] and the
                  effect of the mutating ones on the order tables;
    - [Route]   : the effect monad (database, event trace, exceptions) and the
                  handlers [GET] and [PUT];
    - [Wire]    : the JSON body a response object is serialised to;
    - theorems. *)

From Stdlib Require Import ZArith QArith List String Ascii Bool Lia.
Import ListNotations.

Local Open Scope Z_scope.

(* ================================================================== *)
(** ** JavaScript primitives used by the route *)
(* ================================================================== *)

Module JS.

(** A JavaScript string is a sequence of UTF-16 code units. *)
Definition jsstring := list N.

(** Code units of an ASCII literal, to write strings readably. *)
Definition str (s : string) : jsstring :=
  List.map N_of_ascii (list_ascii_of_string s).

(** A JavaScript number.  Finite doubles are carried by the rational they
    denote; [Inf true] is [-Infinity].  Negative zero is not told apart from
    zero: the route never divides, and both are falsy. *)
Inductive number :=
| NaN
| Inf (negative : bool)
| Fin (q : Q).

Definition of_Z (z : Z) : number := Fin (inject_Z z).

(** The values a database cell or a property read can produce. *)
Inductive value :=
| VUndefined
| VNull
| VBool (b : bool)
| VNum (n : number)
| VStr (s : jsstring)
| VDate (t : number).

Inductive jstype := TUndefined | TObject | TBoolean | TNumber | TString.

(** [typeof v] ([typeof null] is ["object"], as is a [Date]). *)
Definition typeof (v : value) : jstype :=
  match v with
  | VUndefined => TUndefined
  | VNull => TObject
  | VBool _ => TBoolean
  | VNum _ => TNumber
  | VStr _ => TString
  | VDate _ => TObject
  end.

(** ToBoolean: [undefined], [null], [false], [0], [NaN] and [""] are falsy. *)
Definition truthy (v : value) : bool :=
  match v with
  | VUndefined | VNull => false
  | VBool b => b
  | VNum NaN => false
  | VNum (Inf _) => true
  | VNum (Fin q) => negb (Qeq_bool q 0)
  | VStr [] => false
  | VStr (_ :: _) => true
  | VDate _ => true
  end.

(** [a && b] evaluates to [a] when [a] is falsy and to [b] otherwise. *)
Definition and_then (a b : value) : value :=
  if truthy a then b else a.

(** *** [Number.parseInt(s, 10)] *)

(** StrWhiteSpaceChar: WhiteSpace and LineTerminator code points. *)
Definition is_white_space (c : N) : bool :=
  match c with
  | 9 | 10 | 11 | 12 | 13 | 32 | 160 | 5760
  | 8192 | 8193 | 8194 | 8195 | 8196 | 8197 | 8198 | 8199 | 8200 | 8201 | 8202
  | 8232 | 8233 | 8239 | 8287 | 12288 | 65279 => true
  | _ => false
  end%N.

Fixpoint trim_start (s : jsstring) : jsstring :=
  match s with
  | c :: rest => if is_white_space c then trim_start rest else s
  | [] => []
  end.

Definition is_digit (c : N) : bool := ((48 <=? c) && (c <=? 57))%N.

Definition digit_value (c : N) : Z := Z.of_N (c - 48).

(** The longest prefix of radix-10 digits. *)
Fixpoint leading_digits (s : jsstring) : list N :=
  match s with
  | c :: rest => if is_digit c then c :: leading_digits rest else []
  | [] => []
  end.

Definition decimal_value (ds : list N) : Z :=
  fold_left (fun acc c => 10 * acc + digit_value c) ds 0.

(** [parseInt s] with radix 10.  [None] is [NaN].  The result is the
    mathematical integer read; the double the engine returns is that integer
    for magnitudes up to 2^53, its rounding above, and [Infinity] past the
    range of doubles (never [NaN]).  With radix 10 no
    ["0x"] prefix is stripped. *)
Definition parseInt (s : jsstring) : option Z :=
  let trimmed := trim_start s in
  let '(sign, unsigned) :=
    match trimmed with
    | c :: rest =>
        if (c =? 45)%N then (-1, rest)         (* "-" *)
        else if (c =? 43)%N then (1, rest)     (* "+" *)
        else (1, trimmed)
    | [] => (1, trimmed)
    end in
  match leading_digits unsigned with
  | [] => None
  | ds => Some (sign * decimal_value ds)
  end.

(** *** [Number(v)] *)

Section ToNumber.

(** StringToNumber is the engine's parser of numeric literals into doubles;
    it is taken as given. *)
Variable StringToNumber : jsstring -> number.

(** [Number(v)]: ToNumber on a primitive, and the time value of a [Date]. *)
Definition Number (v : value) : value :=
  match v with
  | VUndefined => VNum NaN
  | VNull => VNum (of_Z 0)
  | VBool true => VNum (of_Z 1)
  | VBool false => VNum (of_Z 0)
  | VNum n => VNum n
  | VStr s => VNum (StringToNumber s)
  | VDate t => VNum t
  end.

End ToNumber.

(** A row object returned by the query layer: column name to value, in
    column order.  Reading a missing property gives [undefined]. *)
Definition row := list (string * value).

Fixpoint get (r : row) (k : string) : value :=
  match r with
  | [] => VUndefined
  | (k', v) :: rest => if String.eqb k k' then v else get rest k
  end.

End JS.

Import JS.

(* ================================================================== *)
(** ** The statements sent to the query layer and the order tables *)
(* ================================================================== *)

Module Store.

(** The header fields of a validated payload ([orderData] in [PUT]).  The
    schema [orderUpdateSchema] lives outside the route, so each field is kept
    as the JavaScript value the validator hands over. *)
Record order_data := {
  customer_id : value;
  destination_id : value;
  total : value;
  invoice_series : value;
  invoice_number : value;
  invoice_n : value
}.

(** One element of [items] in a validated payload. *)
Record item_input := {
  product_id : value;
  quantity : value;
  price_per_unit : value;
  item_unit : value
}.

(** [validation.data]: the header fields and the three collections. *)
Record update_payload := {
  orderData : order_data;
  items : list item_input;
  truck_ids : list value;
  driver_ids : list value
}.

(** The parameterised statements of the route, one constructor per SQL text,
    carrying the values bound to its parameters. *)
Inductive stmt :=
| SelectOrder (id : Z)
| SelectItems (id : Z)
| SelectTrucks (id : Z)
| SelectDrivers (id : Z)
| UpdateOrder (id : Z) (d : order_data)
| DeleteItems (id : Z)
| InsertItem (order_id : Z) (item : item_input)
| DeleteTrucks (id : Z)
| InsertTruck (pedido_id : Z) (camion_id : value)
| DeleteDrivers (id : Z)
| InsertDriver (pedido_id : Z) (chofer_id : value).

(** A row of RIP.APP_PEDIDOS: the columns the UPDATE writes, and the
    remaining ones (order_number, status, created_at, notes) untouched. *)
Record pedido := {
  p_id : Z;
  p_data : order_data;
  p_updated_at : Z;
  p_other : row
}.

(** A row of RIP.APP_PEDIDOS_ITEMS.  The INSERT gives no [id] and the SELECT
    reads one: the key is generated by the table. *)
Record item_row := {
  i_id : Z;
  i_order_id : Z;
  i_item : item_input
}.

(** Modelled from the spec: the tables behind [executeQuery] (module
    [@/lib/db] and the SQL Server schema are not part of the route).  A table
    is the list of its rows in insertion order; the two link tables hold
    (pedido_id, camion_id) and (pedido_id, chofer_id) pairs.  Values are
    stored as bound, without the rounding a column type may apply.
    [getdate] is the server clock read by GETDATE(). *)
Record database := {
  pedidos : list pedido;
  pedidos_items : list item_row;
  next_item_id : Z;
  pedidos_camiones : list (Z * value);
  pedidos_choferes : list (Z * value);
  getdate : Z
}.

Definition update_pedido (id : Z) (d : order_data) (now : Z) (p : pedido) : pedido :=
  if p_id p =? id
  then {| p_id := p_id p; p_data := d; p_updated_at := now; p_other := p_other p |}
  else p.

Definition other_order {A : Type} (key : A -> Z) (id : Z) (r : A) : bool :=
  negb (key r =? id).

(** The effect of one statement that succeeds.  SELECTs change nothing;
    UPDATE rewrites the header with that id; DELETE removes every row of the
    order; INSERT adds one row. *)
Definition apply_stmt (s : stmt) (d : database) : database :=
  match s with
  | SelectOrder _ | SelectItems _ | SelectTrucks _ | SelectDrivers _ => d
  | UpdateOrder id data =>
      {| pedidos := List.map (update_pedido id data (getdate d)) (pedidos d);
         pedidos_items := pedidos_items d;
         next_item_id := next_item_id d;
         pedidos_camiones := pedidos_camiones d;
         pedidos_choferes := pedidos_choferes d;
         getdate := getdate d |}
  | DeleteItems id =>
      {| pedidos := pedidos d;
         pedidos_items := filter (other_order i_order_id id) (pedidos_items d);
         next_item_id := next_item_id d;
         pedidos_camiones := pedidos_camiones d;
         pedidos_choferes := pedidos_choferes d;
         getdate := getdate d |}
  | InsertItem id item =>
      {| pedidos := pedidos d;
         pedidos_items :=
           pedidos_items d ++
           [{| i_id := next_item_id d; i_order_id := id; i_item := item |}];
         next_item_id := next_item_id d + 1;
         pedidos_camiones := pedidos_camiones d;
         pedidos_choferes := pedidos_choferes d;
         getdate := getdate d |}
  | DeleteTrucks id =>
      {| pedidos := pedidos d;
         pedidos_items := pedidos_items d;
         next_item_id := next_item_id d;
         pedidos_camiones := filter (other_order fst id) (pedidos_camiones d);
         pedidos_choferes := pedidos_choferes d;
         getdate := getdate d |}
  | InsertTruck id camion =>
      {| pedidos := pedidos d;
         pedidos_items := pedidos_items d;
         next_item_id := next_item_id d;
         pedidos_camiones := pedidos_camiones d ++ [(id, camion)];
         pedidos_choferes := pedidos_choferes d;
         getdate := getdate d |}
  | DeleteDrivers id =>
      {| pedidos := pedidos d;
         pedidos_items := pedidos_items d;
         next_item_id := next_item_id d;
         pedidos_camiones := pedidos_camiones d;
         pedidos_choferes := filter (other_order fst id) (pedidos_choferes d);
         getdate := getdate d |}
  | InsertDriver id chofer =>
      {| pedidos := pedidos d;
         pedidos_items := pedidos_items d;
         next_item_id := next_item_id d;
         pedidos_camiones := pedidos_camiones d;
         pedidos_choferes := pedidos_choferes d ++ [(id, chofer)];
         getdate := getdate d |}
  end.

(** The table a statement writes to, if any. *)
Inductive table := Pedidos | Items | Camiones | Choferes.

Definition written_table (s : stmt) : option table :=
  match s with
  | SelectOrder _ | SelectItems _ | SelectTrucks _ | SelectDrivers _ => None
  | UpdateOrder _ _ => Some Pedidos
  | DeleteItems _ | InsertItem _ _ => Some Items
  | DeleteTrucks _ | InsertTruck _ _ => Some Camiones
  | DeleteDrivers _ | InsertDriver _ _ => Some Choferes
  end.

(** The order a statement is bound to: its [@id], [@order_id] or
    [@pedido_id] parameter. *)
Definition stmt_order (s : stmt) : Z :=
  match s with
  | SelectOrder id | SelectItems id | SelectTrucks id | SelectDrivers id => id
  | UpdateOrder id _ => id
  | DeleteItems id | InsertItem id _ => id
  | DeleteTrucks id | InsertTruck id _ => id
  | DeleteDrivers id | InsertDriver id _ => id
  end.

Definition apply_all (ss : list stmt) (d : database) : database :=
  fold_left (fun acc s => apply_stmt s acc) ss d.

(** The three child collections stored for an order, as the columns the
    INSERTs write. *)
Definition order_items (d : database) (id : Z) : list item_input :=
  List.map i_item (filter (fun r => i_order_id r =? id) (pedidos_items d)).

Definition order_trucks (d : database) (id : Z) : list value :=
  List.map snd (filter (fun r => fst r =? id) (pedidos_camiones d)).

Definition order_drivers (d : database) (id : Z) : list value :=
  List.map snd (filter (fun r => fst r =? id) (pedidos_choferes d)).

End Store.

Import Store.

(* ================================================================== *)
(** ** The route handlers *)
(* ================================================================== *)

Module Route.

(** Cache tags passed to [revalidateTag]: ["orders"] and [`order-${id}`]. *)
Inductive tag :=
| TagOrders
| TagOrder (id : Z).

(** What a handler does to the outside, in program order. *)
Inductive event :=
| Query (s : stmt)
| Revalidate (t : tag)
| ConsoleError (label : string).

Record world := {
  db : database;
  trace : list event
}.

Definition emit (e : event) (w : world) : world :=
  {| db := db w; trace := trace w ++ [e] |}.

(** *** The aggregate returned by GET *)

Record client_obj := {
  client_id : value;
  client_name : value;
  client_rfc : value
}.

Record invoice_obj := {
  serie : value;
  folio : value;
  invoice_obj_n : value
}.

Record product_obj := {
  product_obj_id : value;
  product_name : value;
  product_unit : value
}.

Record item_obj := {
  item_id : value;
  item_quantity : value;
  item_price_per_unit : value;
  item_obj_unit : value;
  product : product_obj
}.

(** [populatedOrder]: the header row spread at top level ([...order]), then
    the five nested properties.  [invoice_of = None] is [invoice: null]. *)
Record populated_order := {
  order : row;
  client : client_obj;
  invoice_of : option invoice_obj;
  items_of : list item_obj;
  trucks : list row;
  drivers : list row
}.

(** *** Computations that may throw *)

Inductive outcome (A : Type) :=
| Returned (a : A)
| Thrown.

Arguments Returned {A} a.
Arguments Thrown {A}.

Definition M (A : Type) := world -> outcome A * world.

Definition ret {A : Type} (a : A) : M A := fun w => (Returned a, w).

Definition bind {A B : Type} (m : M A) (k : A -> M B) : M B :=
  fun w =>
    match m w with
    | (Returned a, w') => k a w'
    | (Thrown, w') => (Thrown, w')
    end.

Notation "x <- m ;; k" := (bind m (fun x => k))
  (at level 61, m at next level, right associativity).
Notation "m ;; k" := (bind m (fun _ => k))
  (at level 61, right associativity).

(** [for (const x of xs) { await body(x) }] *)
Fixpoint for_of {A : Type} (xs : list A) (body : A -> M unit) : M unit :=
  match xs with
  | [] => ret tt
  | x :: rest => body x ;; for_of rest body
  end.

Definition revalidateTag (t : tag) : M unit :=
  fun w => (Returned tt, emit (Revalidate t) w).

Section Handlers.

(** The collaborators of the route, none of them defined in it. *)

(** The parsed request body and the issues reported by the validator. *)
Variable json : Type.
Variable zod_issue : Type.

Inductive safe_parse_result :=
| ParseSuccess (data : update_payload)
| ParseError (errors : list zod_issue).

(** [orderUpdateSchema.safeParse] *)
Variable safeParse : json -> safe_parse_result.

Variable StringToNumber : jsstring -> number.

(** The rows [executeQuery] resolves to for a statement on a database. *)
Variable query_rows : database -> stmt -> list row.

(** Whether [executeQuery] rejects, for a statement issued in a world
    (constraint violation, lost connection, ...). *)
Variable fails : world -> stmt -> bool.

(** The incoming request: the [id] path segment and what [request.json()]
    resolves to ([None] when it rejects: the body is not JSON). *)
Record request := {
  params_id : jsstring;
  request_json : option json
}.

Inductive body :=
| Text (s : string)
| JsonIssues (errors : list zod_issue)
| JsonOrder (o : populated_order)
| JsonUpdated (message : string) (id : Z).

Record response := {
  status : Z;
  payload : body
}.

(** [new NextResponse(text, { status })] *)
Definition text_response (s : string) (code : Z) : response :=
  {| status := code; payload := Text s |}.

(** [NextResponse.json(b, { status })]; the status defaults to 200. *)
Definition json_response (b : body) (code : Z) : response :=
  {| status := code; payload := b |}.

(** Modelled from the spec: [executeQuery] of [@/lib/db], "accepts a
    parameterized statement plus a list of named, typed parameters; returns
    an array of row objects (or performs the statement with no return value
    expected for mutations)".  Each call is one statement on its own: when
    it rejects the statement has had no effect, when it resolves the
    statement is applied. *)
Definition executeQuery (s : stmt) : M (list row) :=
  fun w =>
    if fails w s
    then (Thrown, emit (Query s) w)
    else (Returned (query_rows (db w) s),
          {| db := apply_stmt s (db w); trace := trace w ++ [Query s] |}).

(** [await request.json()] *)
Definition request_json_of (r : request) : M json :=
  fun w =>
    match request_json r with
    | Some j => (Returned j, w)
    | None => (Thrown, w)
    end.

(** [try { ... } catch (error) { console.error(label, error); return 500 }] *)
Definition try_catch (label : string) (block : M response)
  : world -> response * world :=
  fun w =>
    match block w with
    | (Returned r, w') => (r, w')
    | (Thrown, w') =>
        (text_response "Error interno del servidor" 500,
         emit (ConsoleError label) w')
    end.

(** *** GET *)

Definition item_of_row (item : row) : item_obj :=
  {| item_id := get item "id";
     item_quantity := Number StringToNumber (get item "quantity");
     item_price_per_unit := Number StringToNumber (get item "price_per_unit");
     item_obj_unit := get item "unit";
     product :=
       {| product_obj_id := get item "product_id";
          product_name := get item "product_name";
          product_unit := get item "product_unit" |} |}.

Definition populatedOrder (order : row) (itemsResult trucksResult driversResult : list row)
  : populated_order :=
  {| order := order;
     client :=
       {| client_id := get order "customer_id";
          client_name := get order "client_name";
          client_rfc := get order "rfc" |};
     invoice_of :=
       if truthy (and_then (get order "invoice_series") (get order "invoice_number"))
       then Some {| serie := get order "invoice_series";
                    folio := get order "invoice_number";
                    invoice_obj_n := get order "invoice_n" |}
       else None;
     items_of := List.map item_of_row itemsResult;
     trucks := trucksResult;
     drivers := driversResult |}.

Definition GET (request : request) : world -> response * world :=
  try_catch "[API_ORDERS_ID_GET]"
    match parseInt (params_id request) with
    | None => ret (text_response "ID de pedido inválido" 400)
    | Some id =>
        orderResult <- executeQuery (SelectOrder id) ;;
        match orderResult with
        | [] => ret (text_response "Pedido no encontrado" 404)
        | order :: _ =>
            itemsResult <- executeQuery (SelectItems id) ;;
            trucksResult <- executeQuery (SelectTrucks id) ;;
            driversResult <- executeQuery (SelectDrivers id) ;;
            ret (json_response
                   (JsonOrder (populatedOrder order itemsResult trucksResult driversResult))
                   200)
        end
    end.

(** *** PUT *)

Definition PUT (request : request) : world -> response * world :=
  try_catch "[API_ORDERS_ID_PUT]"
    match parseInt (params_id request) with
    | None => ret (text_response "ID de pedido inválido" 400)
    | Some id =>
        body <- request_json_of request ;;
        match safeParse body with
        | ParseError errors => ret (json_response (JsonIssues errors) 400)
        | ParseSuccess data =>
            executeQuery (UpdateOrder id (orderData data)) ;;
            executeQuery (DeleteItems id) ;;
            for_of (items data)
              (fun item => executeQuery (InsertItem id item) ;; ret tt) ;;
            executeQuery (DeleteTrucks id) ;;
            for_of (truck_ids data)
              (fun truckId => executeQuery (InsertTruck id truckId) ;; ret tt) ;;
            executeQuery (DeleteDrivers id) ;;
            for_of (driver_ids data)
              (fun driverId => executeQuery (InsertDriver id driverId) ;; ret tt) ;;
            revalidateTag TagOrders ;;
            revalidateTag (TagOrder id) ;;
            ret (json_response
                   (JsonUpdated "Pedido actualizado correctamente" id) 200)
        end
    end.

(** *** The write sequence of PUT, as a list *)

(** The statements PUT sends for a validated payload, in program order. *)
Definition put_script (id : Z) (data : update_payload) : list stmt :=
  [UpdateOrder id (orderData data); DeleteItems id]
  ++ List.map (InsertItem id) (items data)
  ++ [DeleteTrucks id]
  ++ List.map (InsertTruck id) (truck_ids data)
  ++ [DeleteDrivers id]
  ++ List.map (InsertDriver id) (driver_ids data).

(** The four reads GET sends for an order that exists, in program order. *)
Definition get_script (id : Z) : list stmt :=
  [SelectOrder id; SelectItems id; SelectTrucks id; SelectDrivers id].

(** The world once every statement of [ss] has been issued and applied. *)
Definition after_all (ss : list stmt) (w : world) : world :=
  {| db := apply_all ss (db w); trace := trace w ++ List.map Query ss |}.

(** Position of the first statement of [ss] that [executeQuery] rejects
    when [ss] is issued from [w], one statement after the other. *)
Fixpoint first_failure (ss : list stmt) (w : world) : option nat :=
  match ss with
  | [] => None
  | s :: rest =>
      if fails w s then Some 0%nat
      else option_map S (first_failure rest (after_all [s] w))
  end.

(** Issue the statements of [ss] in turn, then continue with [k]. *)
Fixpoint script_then {B : Type} (ss : list stmt) (k : M B) : M B :=
  match ss with
  | [] => k
  | s :: rest => executeQuery s ;; script_then rest k
  end.

(** The claim's reading of "the id is an integer": an optional sign followed
    by decimal digits and nothing else. *)
Definition is_integer_literal (s : jsstring) : bool :=
  let unsigned :=
    match s with
    | c :: rest => if ((c =? 45) || (c =? 43))%N then rest else s
    | [] => s
    end in
  match unsigned with
  | [] => false
  | _ => forallb is_digit unsigned
  end.

(** The statements issued along a trace. *)
Definition queries (t : list event) : list stmt :=
  flat_map (fun e => match e with Query s => [s] | _ => [] end) t.

(** The labels passed to [console.error] along a trace. *)
Definition logged (t : list event) : list string :=
  flat_map (fun e => match e with ConsoleError l => [l] | _ => [] end) t.

(** The cache tags invalidated along a trace. *)
Definition revalidated (t : list event) : list tag :=
  flat_map (fun e => match e with Revalidate g => [g] | _ => [] end) t.

End Handlers.

Arguments params_id {json} r.
Arguments request_json {json} r.
Arguments Build_request {json} params_id request_json.
Arguments ParseSuccess {zod_issue} data.
Arguments ParseError {zod_issue} errors.
Arguments Text {zod_issue} s.
Arguments JsonIssues {zod_issue} errors.
Arguments JsonOrder {zod_issue} o.
Arguments JsonUpdated {zod_issue} message id.
Arguments status {zod_issue} r.
Arguments payload {zod_issue} r.
Arguments Build_response {zod_issue} status payload.
Arguments text_response {zod_issue} s code.
Arguments json_response {zod_issue} b code.
Arguments request_json_of {json} r w.
Arguments try_catch {zod_issue} label block w.
Arguments GET {json zod_issue} StringToNumber query_rows fails request w.
Arguments PUT {json zod_issue} safeParse query_rows fails request w.
Arguments script_then query_rows fails {B} ss k w.

End Route.

Import Route.

(* ================================================================== *)
(** ** The JSON body of a response *)
(* ================================================================== *)

Module Wire.

(** A JSON value, as the body of a response carries it. *)
#[warnings="-register-all"]
Inductive json_value :=
| JNull
| JBool (b : bool)
| JNumber (q : Q)
| JString (s : jsstring)
| JArray (elements : list json_value)
| JObject (members : list (string * json_value)).

(** A value as the handler builds it: a primitive, an array, or a plain
    object with its properties in insertion order. *)
#[warnings="-register-all"]
Inductive js_tree :=
| Prim (v : value)
| Arr (elements : list js_tree)
| Obj (props : list (string * js_tree)).

(** [{ ...o, k: x }]: the property is replaced where it stands when [o] has
    it, and added at the end otherwise. *)
Fixpoint set_prop (k : string) (x : js_tree) (props : list (string * js_tree))
  : list (string * js_tree) :=
  match props with
  | [] => [(k, x)]
  | (k', y) :: rest =>
      if String.eqb k k' then (k, x) :: rest else (k', y) :: set_prop k x rest
  end.


Fixpoint find_member (k : string) (members : list (string * json_value))
  : option json_value :=
  match members with
  | [] => None
  | (k', v) :: rest => if String.eqb k k' then Some v else find_member k rest
  end.

(** The member [k] of a JSON object. *)
Definition json_field (k : string) (j : json_value) : option json_value :=
  match j with
  | JObject members => find_member k members
  | _ => None
  end.

Section Stringify.

(** [Date.prototype.toISOString] on a finite time value; the calendar
    arithmetic is the engine's. *)
Variable toISOString : Q -> jsstring.

(** [JSON.stringify] on a primitive; [None] is [undefined].  A number that is
    not finite is written [null]; a [Date] goes through [toJSON]. *)
Definition stringify_primitive (v : value) : option json_value :=
  match v with
  | VUndefined => None
  | VNull => Some JNull
  | VBool b => Some (JBool b)
  | VNum (Fin q) => Some (JNumber q)
  | VNum _ => Some JNull
  | VStr s => Some (JString s)
  | VDate (Fin t) => Some (JString (toISOString t))
  | VDate _ => Some JNull
  end.

(** [JSON.stringify], read as a JSON value: an [undefined] element of an
    array is written [null], an [undefined] property of an object is left
    out. *)
Fixpoint stringify (x : js_tree) : option json_value :=
  match x with
  | Prim v => stringify_primitive v
  | Arr elements =>
      Some (JArray
              (List.map
                 (fun y => match stringify y with Some j => j | None => JNull end)
                 elements))
  | Obj props =>
      Some (JObject
              (flat_map
                 (fun p => match stringify (snd p) with
                           | Some j => [(fst p, j)]
                           | None => []
                           end)
                 props))
  end.


End Stringify.

(** A row object, one property per column. *)
Definition row_object (r : row) : js_tree :=
  Obj (List.map (fun cell => (fst cell, Prim (snd cell))) r).

Definition item_object (it : item_obj) : js_tree :=
  Obj [("id", Prim (item_id it));
       ("quantity", Prim (item_quantity it));
       ("price_per_unit", Prim (item_price_per_unit it));
       ("unit", Prim (item_obj_unit it));
       ("product",
        Obj [("id", Prim (product_obj_id (product it)));
             ("name", Prim (product_name (product it)));
             ("unit", Prim (product_unit (product it)))])]%string.

(** The object literal [populatedOrder] of GET: the header row spread, then
    [client], [invoice], [items], [trucks] and [drivers] set in that order. *)
Definition order_object (o : populated_order) : js_tree :=
  Obj
    (set_prop "drivers" (Arr (List.map row_object (drivers o)))
    (set_prop "trucks" (Arr (List.map row_object (trucks o)))
    (set_prop "items" (Arr (List.map item_object (items_of o)))
    (set_prop "invoice"
       match invoice_of o with
       | Some i => Obj [("serie", Prim (serie i));
                        ("folio", Prim (folio i));
                        ("n", Prim (invoice_obj_n i))]
       | None => Prim VNull
       end
    (set_prop "client"
       (Obj [("id", Prim (client_id (client o)));
             ("name", Prim (client_name (client o)));
             ("rfc", Prim (client_rfc (client o)))])
       (List.map (fun cell => (fst cell, Prim (snd cell))) (order o)))))))%string.


End Wire.

Import Wire.

(* ================================================================== *)
(** ** A concrete instance, to run the handlers on *)
(* ================================================================== *)

Module Sample.

Definition num (z : Z) : value := VNum (of_Z z).

(** The payload of the spec's example: one item, truck 5, driver 9. *)
Definition kg_item : item_input :=
  {| product_id := num 1; quantity := num 2; price_per_unit := num 10;
     item_unit := VStr (str "kg") |}.

Definition header : order_data :=
  {| customer_id := num 3; destination_id := VNull; total := num 20;
     invoice_series := VStr (str "A"); invoice_number := num 15;
     invoice_n := num 1 |}.

Definition new_payload : update_payload :=
  {| orderData := header; items := [kg_item];
     truck_ids := [num 5]; driver_ids := [num 9] |}.

Definition old_item (p : Z) : item_input :=
  {| product_id := num p; quantity := num 1; price_per_unit := num 4;
     item_unit := VStr (str "t") |}.

Definition old_header : order_data :=
  {| customer_id := num 2; destination_id := num 6; total := num 8;
     invoice_series := VNull; invoice_number := VNull; invoice_n := VNull |}.

(** Order 7 holds two items, two trucks and one driver; order 8 has rows of
    its own in each table. *)
Definition stored : database :=
  {| pedidos :=
       [{| p_id := 7; p_data := old_header; p_updated_at := 100; p_other := [] |};
        {| p_id := 8; p_data := old_header; p_updated_at := 100; p_other := [] |}];
     pedidos_items :=
       [{| i_id := 1; i_order_id := 7; i_item := old_item 11 |};
        {| i_id := 2; i_order_id := 8; i_item := old_item 12 |};
        {| i_id := 3; i_order_id := 7; i_item := old_item 13 |}];
     next_item_id := 4;
     pedidos_camiones := [(7, num 1); (8, num 2); (7, num 3)];
     pedidos_choferes := [(8, num 4); (7, num 6)];
     getdate := 200 |}.

Definition start : world := {| db := stored; trace := [] |}.

(** A request body is either a payload that validates or one that does not. *)
Definition body_json := option update_payload.

Definition validate (j : body_json) : safe_parse_result string :=
  match j with
  | Some data => ParseSuccess data
  | None => ParseError ["customer_id: Required"%string]
  end.

Definition put_request (id : string) (data : update_payload) : request body_json :=
  {| params_id := str id; request_json := Some (Some data) |}.

Definition get_request (id : string) : request body_json :=
  {| params_id := str id; request_json := None |}.

(** A query layer that never rejects, and one that rejects the statement
    issued once [n] statements are already in the trace. *)
Definition never : world -> stmt -> bool := fun _ _ => false.

Definition at_position (n : nat) : world -> stmt -> bool :=
  fun w _ => Nat.eqb (List.length (trace w)) n.

(** Rows answered to the SELECTs of GET on order 7: a header with a series
    and the folio given, and one item delivered with decimal strings. *)
Definition header_row (folio : value) : row :=
  [("id", num 7); ("customer_id", num 3); ("invoice_series", VStr (str "A"));
   ("invoice_number", folio); ("invoice_n", num 1);
   ("client_name", VStr (str "ACME")); ("rfc", VStr (str "X1"))]%string.

Definition item_row_text : row :=
  [("id", num 1); ("quantity", VStr (str "2.50"));
   ("price_per_unit", VStr (str "10.00")); ("unit", VStr (str "kg"));
   ("product_id", num 1); ("product_name", VStr (str "Grava"));
   ("product_unit", VStr (str "kg"))]%string.

Definition answers (folio : value) : database -> stmt -> list row :=
  fun _ s =>
    match s with
    | SelectOrder 7 => [header_row folio]
    | SelectItems 7 => [item_row_text]
    | _ => []
    end.

(** A stand-in for the engine's numeric parser: it knows the two literals
    of [item_row_text] and answers [NaN] otherwise. *)
Definition to_number (s : jsstring) : number :=
  match s with
  | [50; 46; 53; 48]%N => Fin (5 # 2)
  | [49; 48; 46; 48; 48]%N => Fin (10 # 1)
  | _ => NaN
  end.

(** A payload with two items, to stop a PUT between the two INSERTs. *)
Definition two_items_payload : update_payload :=
  {| orderData := header; items := [kg_item; old_item 21];
     truck_ids := [num 5]; driver_ids := [num 9] |}.

(** The header lookup of [answers] with a second row behind the first. *)
Definition answers_two_headers (folio : value) : database -> stmt -> list row :=
  fun d s =>
    match s with
    | SelectOrder id =>
        if id =? 7 then [header_row folio; header_row VNull] else answers folio d s
    | _ => answers folio d s
    end.

(** The reads of [answers], with the rows given for the items. *)
Definition answers_items (rows : list row) (folio : value)
  : database -> stmt -> list row :=
  fun d s =>
    match s with
    | SelectItems _ => rows
    | _ => answers folio d s
    end.


(** An item delivered with a NULL quantity and a numeric price. *)
Definition item_row_null : row :=
  [("id", num 2); ("quantity", VNull); ("price_per_unit", num 4);
   ("unit", VStr (str "t"))]%string.

(** A stand-in for the engine's date formatter. *)
Definition iso (t : Q) : jsstring := str "2024-01-01T00:00:00.000Z".

End Sample.

(* ================================================================== *)
(** ** Properties *)
(* ================================================================== *)

Section Properties.

Context {json zod_issue : Type}.
Variable safeParse : json -> safe_parse_result zod_issue.
Variable StringToNumber : jsstring -> number.
Variable query_rows : database -> stmt -> list row.
Variable fails : world -> stmt -> bool.
Variable toISOString : Q -> jsstring.

Local Abbreviation executeQuery := (Route.executeQuery query_rows fails).
Local Abbreviation script_then := (Route.script_then query_rows fails).
Local Abbreviation first_failure := (Route.first_failure fails).
Local Abbreviation GET :=
  (Route.GET (json:=json) (zod_issue:=zod_issue) StringToNumber query_rows fails).
Local Abbreviation PUT :=
  (Route.PUT (json:=json) (zod_issue:=zod_issue) safeParse query_rows fails).
Local Abbreviation internal_error :=
  (text_response (zod_issue:=zod_issue) "Error interno del servidor" 500).
Local Abbreviation invalid_id :=
  (text_response (zod_issue:=zod_issue) "ID de pedido inválido" 400).
Local Abbreviation updated id :=
  (json_response (zod_issue:=zod_issue)
     (JsonUpdated "Pedido actualizado correctamente" id) 200).

(** *** The monad and scripts *)

Lemma bind_cong {A B : Type} (m : M A) (k k' : A -> M B) (w : world) :
  (forall a w', k a w' = k' a w') -> bind m k w = bind m k' w.
Proof.
  intros E. unfold bind. destruct (m w) as [[a|] w']; [apply E | reflexivity].
Qed.

Lemma world_eta (w : world) : {| db := db w; trace := trace w ++ [] |} = w.
Proof. destruct w; simpl; now rewrite app_nil_r. Qed.

Lemma script_then_cong {B : Type} (ss : list stmt) (k k' : M B) :
  (forall w, k w = k' w) -> forall w, script_then ss k w = script_then ss k' w.
Proof.
  intros E. induction ss as [|s rest IH]; intros w; simpl.
  - apply E.
  - apply bind_cong. intros _ w'. apply IH.
Qed.

Lemma script_then_app {B : Type} (a b : list stmt) (k : M B) (w : world) :
  script_then (a ++ b) k w = script_then a (script_then b k) w.
Proof.
  revert w. induction a as [|s rest IH]; intros w; simpl.
  - reflexivity.
  - apply bind_cong. intros _ w'. apply IH.
Qed.

Lemma for_of_then {A B : Type} (f : A -> stmt) (xs : list A) (k : M B) (w : world) :
  (for_of xs (fun x => executeQuery (f x) ;; ret tt) ;; k) w
  = script_then (List.map f xs) k w.
Proof.
  revert w. induction xs as [|x rest IH]; intros w.
  - reflexivity.
  - simpl. specialize (IH (after_all [f x] w)).
    unfold bind, Route.executeQuery in *. destruct (fails w (f x)); simpl.
    + reflexivity.
    + exact IH.
Qed.

(** A script either goes through, and the continuation runs in the world
    where all of it is applied, or stops at its first rejected statement,
    with the statements before it applied and nothing issued after it. *)
Lemma script_then_spec {B : Type} (ss : list stmt) (k : M B) (w : world) :
  script_then ss k w =
  match first_failure ss w with
  | None => k (after_all ss w)
  | Some n =>
      (Thrown,
       {| db := apply_all (firstn n ss) (db w);
          trace := trace w ++ List.map Query (firstn (S n) ss) |})
  end.
Proof.
  revert w. induction ss as [|s rest IH]; intros w.
  - simpl. unfold after_all. simpl. now rewrite world_eta.
  - simpl. unfold bind, Route.executeQuery. destruct (fails w s).
    + reflexivity.
    + rewrite IH.
      unfold after_all; simpl.
      destruct (Route.first_failure _ rest _); simpl; now rewrite <- app_assoc.
Qed.

Lemma first_failure_bound (ss : list stmt) (w : world) (n : nat) :
  first_failure ss w = Some n -> (n < List.length ss)%nat.
Proof.
  revert w n. induction ss as [|s rest IH]; intros w n; simpl.
  - discriminate.
  - destruct (fails w s).
    + intros [= <-]. lia.
    + destruct (Route.first_failure _ rest _) eqn:E; simpl; [|discriminate].
      intros [= <-]. apply IH in E. lia.
Qed.

(** *** PUT on a validated payload is its script *)

Lemma put_sequence_script (id : Z) (data : update_payload) (k : M (response zod_issue))
    (w : world) :
  (executeQuery (UpdateOrder id (orderData data)) ;;
   executeQuery (DeleteItems id) ;;
   for_of (items data) (fun item => executeQuery (InsertItem id item) ;; ret tt) ;;
   executeQuery (DeleteTrucks id) ;;
   for_of (truck_ids data) (fun t => executeQuery (InsertTruck id t) ;; ret tt) ;;
   executeQuery (DeleteDrivers id) ;;
   for_of (driver_ids data) (fun c => executeQuery (InsertDriver id c) ;; ret tt) ;;
   k) w
  = script_then (put_script id data) k w.
Proof.
  unfold put_script. simpl.
  apply bind_cong; intros _ w1.
  apply bind_cong; intros _ w2.
  rewrite script_then_app, for_of_then.
  apply script_then_cong; intros w3. simpl.
  apply bind_cong; intros _ w4.
  rewrite script_then_app, for_of_then.
  apply script_then_cong; intros w5. simpl.
  apply bind_cong; intros _ w6.
  rewrite for_of_then.
  rewrite <- (app_nil_r (List.map (InsertDriver id) (driver_ids data))) at 2.
  now rewrite script_then_app.
Qed.

(** The two ways a PUT with a parsing id and a validated payload ends. *)
Lemma PUT_valid (req : request json) (w : world) (id : Z) (j : json)
    (data : update_payload) :
  parseInt (params_id req) = Some id ->
  request_json req = Some j ->
  safeParse j = ParseSuccess data ->
  PUT req w =
  match first_failure (put_script id data) w with
  | None =>
      (updated id,
       {| db := apply_all (put_script id data) (db w);
          trace := trace w ++ List.map Query (put_script id data)
                   ++ [Revalidate TagOrders; Revalidate (TagOrder id)] |})
  | Some n =>
      (internal_error,
       {| db := apply_all (firstn n (put_script id data)) (db w);
          trace := trace w ++ List.map Query (firstn (S n) (put_script id data))
                   ++ [ConsoleError "[API_ORDERS_ID_PUT]"] |})
  end.
Proof.
  intros Hid Hj Hv. unfold Route.PUT, try_catch. rewrite Hid.
  unfold bind at 1. unfold request_json_of. rewrite Hj, Hv.
  rewrite put_sequence_script, script_then_spec.
  destruct (Route.first_failure _ _ _); simpl.
  - unfold emit; simpl. now rewrite <- app_assoc.
  - unfold bind, revalidateTag, ret, emit, after_all; simpl.
    now rewrite <- !app_assoc.
Qed.

(** *** The tables under a script *)

Lemma apply_all_app (a b : list stmt) (d : database) :
  apply_all (a ++ b) d = apply_all b (apply_all a d).
Proof. apply fold_left_app. Qed.

Lemma filter_order_deleted {A : Type} (key : A -> Z) (id : Z) (l : list A) :
  filter (fun r => key r =? id) (filter (other_order key id) l) = [].
Proof.
  induction l as [|r rest IH]; simpl; [reflexivity|].
  unfold other_order at 1. destruct (key r =? id) eqn:E; simpl; [exact IH|].
  now rewrite E.
Qed.

Lemma items_untouched (s : stmt) (d : database) :
  written_table s <> Some Items -> pedidos_items (apply_stmt s d) = pedidos_items d.
Proof. destruct s; simpl; intros H; try reflexivity; now contradiction H. Qed.

Lemma camiones_untouched (s : stmt) (d : database) :
  written_table s <> Some Camiones ->
  pedidos_camiones (apply_stmt s d) = pedidos_camiones d.
Proof. destruct s; simpl; intros H; try reflexivity; now contradiction H. Qed.

Lemma choferes_untouched (s : stmt) (d : database) :
  written_table s <> Some Choferes ->
  pedidos_choferes (apply_stmt s d) = pedidos_choferes d.
Proof. destruct s; simpl; intros H; try reflexivity; now contradiction H. Qed.

Lemma untouched_all {A : Type} (col : database -> A) (t : table) :
  (forall s d, written_table s <> Some t -> col (apply_stmt s d) = col d) ->
  forall ss d, Forall (fun s => written_table s <> Some t) ss ->
               col (apply_all ss d) = col d.
Proof.
  intros Hcol ss. induction ss as [|s rest IH]; intros d Hss; simpl.
  - reflexivity.
  - inversion Hss; subst. unfold apply_all in IH. rewrite IH by assumption.
    now apply Hcol.
Qed.

Lemma order_items_deleted (id : Z) (d : database) :
  order_items (apply_stmt (DeleteItems id) d) id = [].
Proof. unfold order_items. simpl. now rewrite filter_order_deleted. Qed.

Lemma order_trucks_deleted (id : Z) (d : database) :
  order_trucks (apply_stmt (DeleteTrucks id) d) id = [].
Proof. unfold order_trucks. simpl. now rewrite filter_order_deleted. Qed.

Lemma order_drivers_deleted (id : Z) (d : database) :
  order_drivers (apply_stmt (DeleteDrivers id) d) id = [].
Proof. unfold order_drivers. simpl. now rewrite filter_order_deleted. Qed.

Lemma order_items_inserted (id : Z) (its : list item_input) (d : database) :
  order_items (apply_all (List.map (InsertItem id) its) d) id
  = order_items d id ++ its.
Proof.
  revert d. induction its as [|it rest IH]; intros d; simpl.
  - now rewrite app_nil_r.
  - unfold apply_all in IH. rewrite IH. unfold order_items. simpl.
    rewrite filter_app, map_app. simpl. rewrite Z.eqb_refl. simpl.
    now rewrite <- app_assoc.
Qed.

Lemma order_trucks_inserted (id : Z) (ts : list value) (d : database) :
  order_trucks (apply_all (List.map (InsertTruck id) ts) d) id
  = order_trucks d id ++ ts.
Proof.
  revert d. induction ts as [|t rest IH]; intros d; simpl.
  - now rewrite app_nil_r.
  - unfold apply_all in IH. rewrite IH. unfold order_trucks. simpl.
    rewrite filter_app, map_app. simpl. rewrite Z.eqb_refl. simpl.
    now rewrite <- app_assoc.
Qed.

Lemma order_drivers_inserted (id : Z) (cs : list value) (d : database) :
  order_drivers (apply_all (List.map (InsertDriver id) cs) d) id
  = order_drivers d id ++ cs.
Proof.
  revert d. induction cs as [|c rest IH]; intros d; simpl.
  - now rewrite app_nil_r.
  - unfold apply_all in IH. rewrite IH. unfold order_drivers. simpl.
    rewrite filter_app, map_app. simpl. rewrite Z.eqb_refl. simpl.
    now rewrite <- app_assoc.
Qed.

Ltac other_tables :=
  repeat first
    [ apply Forall_nil
    | apply Forall_cons; [discriminate|]
    | apply Forall_app; split
    | apply Forall_map, Forall_forall; intros; discriminate ].

(** Once the whole script of a PUT is applied, each child collection of the
    order is the submitted one. *)
Lemma put_script_children (id : Z) (data : update_payload) (d : database) :
  let d' := apply_all (put_script id data) d in
  order_items d' id = items data /\
  order_trucks d' id = truck_ids data /\
  order_drivers d' id = driver_ids data.
Proof.
  unfold put_script. cbv zeta. repeat split.
  - rewrite (apply_all_app [_; _]), apply_all_app.
    unfold order_items at 1.
    rewrite (untouched_all pedidos_items Items items_untouched) by other_tables.
    fold (order_items (apply_all (List.map (InsertItem id) (items data))
            (apply_all [UpdateOrder id (orderData data); DeleteItems id] d)) id).
    rewrite order_items_inserted.
    change (apply_all [UpdateOrder id (orderData data); DeleteItems id] d)
      with (apply_stmt (DeleteItems id) (apply_stmt (UpdateOrder id (orderData data)) d)).
    now rewrite order_items_deleted.
  - rewrite (apply_all_app [_; _]), apply_all_app, (apply_all_app [_]), apply_all_app.
    unfold order_trucks at 1.
    rewrite (untouched_all pedidos_camiones Camiones camiones_untouched) by other_tables.
    match goal with |- List.map snd (filter _ (pedidos_camiones ?x)) = _ =>
      fold (order_trucks x id) end.
    rewrite order_trucks_inserted.
    match goal with |- order_trucks (apply_all [?s] ?x) id ++ _ = _ =>
      change (apply_all [s] x) with (apply_stmt s x) end.
    now rewrite order_trucks_deleted.
  - rewrite (apply_all_app [_; _]), apply_all_app, (apply_all_app [_]), apply_all_app,
      (apply_all_app [_]).
    rewrite order_drivers_inserted.
    match goal with |- order_drivers (apply_all [?s] ?x) id ++ _ = _ =>
      change (apply_all [s] x) with (apply_stmt s x) end.
    now rewrite order_drivers_deleted.
Qed.

Lemma Forall_firstn {A : Type} (P : A -> Prop) (n : nat) (l : list A) :
  Forall P l -> Forall P (firstn n l).
Proof.
  intros H. rewrite <- (firstn_skipn n l) in H. now apply Forall_app in H.
Qed.

Lemma pedidos_untouched (s : stmt) (d : database) :
  written_table s <> Some Pedidos -> pedidos (apply_stmt s d) = pedidos d.
Proof. destruct s; simpl; intros H; try reflexivity; now contradiction H. Qed.

(** *** Traces *)

Lemma revalidated_app (a b : list event) :
  revalidated (a ++ b) = revalidated a ++ revalidated b.
Proof. apply flat_map_app. Qed.

Lemma revalidated_queries (ss : list stmt) : revalidated (List.map Query ss) = [].
Proof. induction ss; simpl; auto. Qed.

Lemma queries_app (a b : list event) : queries (a ++ b) = queries a ++ queries b.
Proof. apply flat_map_app. Qed.

Lemma queries_script (ss : list stmt) : queries (List.map Query ss) = ss.
Proof. induction ss as [|s l IH]; simpl; [reflexivity | now rewrite IH]. Qed.

(** *** GET on an order that exists *)

Lemma GET_found (req : request json) (w : world) (id : Z) (order : row)
    (rest : list row) :
  parseInt (params_id req) = Some id ->
  first_failure (get_script id) w = None ->
  query_rows (db w) (SelectOrder id) = order :: rest ->
  GET req w =
  (json_response
     (JsonOrder
        (populatedOrder StringToNumber order
           (query_rows (db w) (SelectItems id))
           (query_rows (db w) (SelectTrucks id))
           (query_rows (db w) (SelectDrivers id)))) 200,
   after_all (get_script id) w).
Proof.
  intros Hid Hok Hrow. unfold Route.GET, try_catch. rewrite Hid.
  unfold get_script in *. simpl in Hok. unfold after_all in *. simpl in *.
  unfold bind, Route.executeQuery. simpl.
  destruct (fails w (SelectOrder id)); [discriminate|]. rewrite Hrow.
  destruct (fails _ (SelectItems id)); [discriminate|].
  destruct (fails _ (SelectTrucks id)); [discriminate|].
  destruct (fails _ (SelectDrivers id)); [discriminate|].
  unfold ret. simpl. now rewrite <- !app_assoc.
Qed.

(* ================================================================== *)
(** ** The claims *)
(* ================================================================== *)

(** C1.  A PUT that answers 200 on a validated payload leaves, for its order,
    exactly the submitted items, truck ids and driver ids in the three child
    tables: the rows the order had before are gone and there is one row per
    submitted element, in the submitted order. *)
Theorem PUT_replaces_child_collections (req : request json) (w : world) (id : Z)
    (j : json) (data : update_payload) :
  parseInt (params_id req) = Some id ->
  request_json req = Some j ->
  safeParse j = ParseSuccess data ->
  status (fst (PUT req w)) = 200 ->
  let d' := db (snd (PUT req w)) in
  order_items d' id = items data /\
  order_trucks d' id = truck_ids data /\
  order_drivers d' id = driver_ids data.
Proof.
  intros Hid Hj Hv. rewrite (PUT_valid req w id j data Hid Hj Hv).
  destruct (Route.first_failure _ _ _); simpl.
  - discriminate.
  - intros _. apply put_script_children.
Qed.

(** C6.  Running the same validated PUT a second time, right after a first
    run that answered 200, and answering 200 again, leaves the three child
    collections of the order as the first run left them. *)
Theorem PUT_twice_same_children (req : request json) (w : world) (id : Z)
    (j : json) (data : update_payload) :
  parseInt (params_id req) = Some id ->
  request_json req = Some j ->
  safeParse j = ParseSuccess data ->
  let once := PUT req w in
  let twice := PUT req (snd once) in
  status (fst once) = 200 ->
  status (fst twice) = 200 ->
  order_items (db (snd twice)) id = order_items (db (snd once)) id /\
  order_trucks (db (snd twice)) id = order_trucks (db (snd once)) id /\
  order_drivers (db (snd twice)) id = order_drivers (db (snd once)) id.
Proof.
  intros Hid Hj Hv. cbv zeta.
  rewrite (PUT_valid req w id j data Hid Hj Hv).
  destruct (Route.first_failure _ _ w);
    cbn [fst snd status db text_response json_response]; [discriminate|]. intros _.
  rewrite (PUT_valid req _ id j data Hid Hj Hv).
  destruct (Route.first_failure _ _ _);
    cbn [fst snd status db text_response json_response]; [discriminate|]. intros _.
  destruct (put_script_children id data (db w)) as (Ei & Et & Ed).
  destruct (put_script_children id data (apply_all (put_script id data) (db w)))
    as (Ei' & Et' & Ed').
  cbv zeta in *. now rewrite Ei, Et, Ed, Ei', Et', Ed'.
Qed.

(** C8.  When the statement at position [n] of the write sequence is the
    first one rejected, PUT answers 500 with the generic message; the
    database is the one where the [n] statements before it are applied, and
    the only statements issued are those [n] and the rejected one: nothing is
    sent to undo them.  In particular, once the header UPDATE has gone through
    ([1 <= n]) the header stays updated. *)
Theorem PUT_failure_keeps_applied_prefix (req : request json) (w : world)
    (id : Z) (j : json) (data : update_payload) (n : nat) :
  parseInt (params_id req) = Some id ->
  request_json req = Some j ->
  safeParse j = ParseSuccess data ->
  first_failure (put_script id data) w = Some n ->
  PUT req w =
    (internal_error,
     {| db := apply_all (firstn n (put_script id data)) (db w);
        trace := trace w ++ List.map Query (firstn (S n) (put_script id data))
                 ++ [ConsoleError "[API_ORDERS_ID_PUT]"] |}) /\
  queries (trace (snd (PUT req w)))
    = queries (trace w) ++ firstn (S n) (put_script id data) /\
  ((1 <= n)%nat ->
   pedidos (db (snd (PUT req w)))
   = List.map (update_pedido id (orderData data) (getdate (db w))) (pedidos (db w))).
Proof.
  intros Hid Hj Hv Hn. rewrite (PUT_valid req w id j data Hid Hj Hv), Hn.
  split; [reflexivity|]. cbn [snd db trace]. split.
  - rewrite !queries_app, queries_script.
    change (queries [ConsoleError "[API_ORDERS_ID_PUT]"]) with (@nil stmt).
    now rewrite app_nil_r.
  - intros Hle. destruct n as [|m]; [lia|].
    unfold put_script. simpl firstn.
    change (apply_all (?s :: ?l) ?d) with (apply_all l (apply_stmt s d)).
    rewrite (untouched_all pedidos Pedidos pedidos_untouched).
    + reflexivity.
    + apply Forall_firstn. apply Forall_cons; [discriminate|]. other_tables.
Qed.

(** C4.  When the body parses as JSON and the validator rejects it, PUT
    answers 400 with the validator's list of issues and leaves the world as
    it was: no statement is issued and no table changes. *)
Theorem PUT_invalid_payload (req : request json) (w : world) (id : Z) (j : json)
    (errors : list zod_issue) :
  parseInt (params_id req) = Some id ->
  request_json req = Some j ->
  safeParse j = ParseError errors ->
  PUT req w = (json_response (JsonIssues errors) 400, w).
Proof.
  intros Hid Hj Hv. unfold Route.PUT, try_catch. rewrite Hid.
  unfold bind, request_json_of. now rewrite Hj, Hv.
Qed.

(** C9, as amended.  When the id parses and [request.json()] rejects, PUT
    answers 500 with the generic message; the failure is only logged, no
    statement is issued and the database is unchanged. *)
Theorem PUT_body_not_json (req : request json) (w : world) (id : Z) :
  parseInt (params_id req) = Some id ->
  request_json req = None ->
  PUT req w = (internal_error, emit (ConsoleError "[API_ORDERS_ID_PUT]") w) /\
  db (snd (PUT req w)) = db w /\
  queries (trace (snd (PUT req w))) = queries (trace w).
Proof.
  intros Hid Hj.
  assert (E : PUT req w = (internal_error, emit (ConsoleError "[API_ORDERS_ID_PUT]") w)).
  { unfold Route.PUT, try_catch. rewrite Hid.
    unfold bind, request_json_of. now rewrite Hj. }
  rewrite E. repeat split. simpl. rewrite queries_app. simpl. apply app_nil_r.
Qed.

(** C10.  Every PUT ends in one of two ways.  Either the id parses, the body
    validates and no statement of the write sequence is rejected: then the
    answer is the 200 confirmation, and the two invalidations come in the
    trace after all the statements.  Or the answer is not a 200 and no
    invalidation has been sent, whatever was applied before. *)
Theorem PUT_invalidates_only_after_full_success (req : request json) (w : world) :
  (exists id j data,
     parseInt (params_id req) = Some id /\
     request_json req = Some j /\
     safeParse j = ParseSuccess data /\
     first_failure (put_script id data) w = None /\
     PUT req w =
       (updated id,
        {| db := apply_all (put_script id data) (db w);
           trace := trace w ++ List.map Query (put_script id data)
                    ++ [Revalidate TagOrders; Revalidate (TagOrder id)] |}))
  \/
  (status (fst (PUT req w)) <> 200 /\
   revalidated (trace (snd (PUT req w))) = revalidated (trace w)).
Proof.
  destruct (parseInt (params_id req)) as [id|] eqn:Hid.
  - destruct (request_json req) as [j|] eqn:Hj.
    + destruct (safeParse j) as [data|errors] eqn:Hv.
      * pose proof (PUT_valid req w id j data Hid Hj Hv) as E.
        destruct (Route.first_failure _ _ _) as [n|] eqn:Hn.
        -- right. rewrite E. cbn [fst snd status trace text_response].
           split; [discriminate|].
           rewrite !revalidated_app, revalidated_queries. simpl.
           now rewrite app_nil_r.
        -- left. exists id, j, data. auto.
      * right. unfold Route.PUT, try_catch. rewrite Hid.
        unfold bind, request_json_of. rewrite Hj, Hv. simpl.
        split; [discriminate | reflexivity].
    + right. unfold Route.PUT, try_catch. rewrite Hid.
      unfold bind, request_json_of. rewrite Hj. simpl.
      split; [discriminate|]. rewrite revalidated_app. simpl. apply app_nil_r.
  - right. unfold Route.PUT, try_catch. rewrite Hid. simpl.
    split; [discriminate | reflexivity].
Qed.

(** C3, as amended.  When [parseInt] finds no integer at the start of the
    id (after leading white space and an optional sign there is no decimal
    digit), GET and PUT answer 400 and leave the world as it was: no query is
    issued. *)
Theorem invalid_id_rejected_before_database (req : request json) (w : world) :
  parseInt (params_id req) = None ->
  GET req w = (invalid_id, w) /\ PUT req w = (invalid_id, w).
Proof.
  intros Hid. unfold Route.GET, Route.PUT, try_catch. now rewrite Hid.
Qed.

(** C5.  When the header lookup goes through and returns no row, GET answers
    404 and the header lookup is the only query it has issued. *)
Theorem GET_missing_order (req : request json) (w : world) (id : Z) :
  parseInt (params_id req) = Some id ->
  fails w (SelectOrder id) = false ->
  query_rows (db w) (SelectOrder id) = [] ->
  GET req w =
    (text_response "Pedido no encontrado" 404, emit (Query (SelectOrder id)) w) /\
  queries (trace (snd (GET req w))) = queries (trace w) ++ [SelectOrder id].
Proof.
  intros Hid Hok Hrows.
  assert (E : GET req w
              = (text_response "Pedido no encontrado" 404,
                 emit (Query (SelectOrder id)) w)).
  { unfold Route.GET, try_catch. rewrite Hid.
    unfold bind, Route.executeQuery. now rewrite Hok, Hrows. }
  rewrite E. split; [reflexivity|]. simpl. now rewrite queries_app.
Qed.

(** C2, as amended.  When GET finds the header and its four reads go through,
    it answers 200 with the aggregate built on that header row, and the nested
    invoice is present exactly when [invoice_series] and [invoice_number] are
    both truthy; it is then made of the row's three invoice fields.  A null
    field makes it absent, and so does an empty series or a zero folio. *)
Theorem GET_invoice_presence (req : request json) (w : world) (id : Z)
    (header : row) (rest : list row) :
  parseInt (params_id req) = Some id ->
  first_failure (get_script id) w = None ->
  query_rows (db w) (SelectOrder id) = header :: rest ->
  exists o,
    GET req w = (json_response (JsonOrder o) 200, after_all (get_script id) w) /\
    order o = header /\
    (invoice_of o <> None <->
     truthy (get header "invoice_series") = true /\
     truthy (get header "invoice_number") = true) /\
    (invoice_of o <> None ->
     invoice_of o = Some {| serie := get header "invoice_series";
                            folio := get header "invoice_number";
                            invoice_obj_n := get header "invoice_n" |}) /\
    (get header "invoice_series" = VNull \/ get header "invoice_number" = VNull ->
     invoice_of o = None).
Proof.
  intros Hid Hok Hrow. eexists. split; [exact (GET_found req w id header rest Hid Hok Hrow)|].
  simpl. unfold and_then. split; [reflexivity|].
  destruct (truthy (get header "invoice_series")) eqn:Es.
  - destruct (truthy (get header "invoice_number")) eqn:En.
    + repeat split; try discriminate; try reflexivity.
      intros [E|E]; rewrite E in *; discriminate.
    + repeat split; try tauto; try discriminate; intuition discriminate.
  - rewrite Es. repeat split; try tauto; try discriminate; intuition discriminate.
Qed.

(** *** The items in the JSON body *)








(* ================================================================== *)
(** ** Further properties of the handlers *)
(* ================================================================== *)

(** *** Every way a PUT can go *)

Lemma PUT_cases (req : request json) (w : world) :
  (parseInt (params_id req) = None /\ PUT req w = (invalid_id, w))
  \/ (exists id,
        parseInt (params_id req) = Some id /\ request_json req = None /\
        PUT req w = (internal_error, emit (ConsoleError "[API_ORDERS_ID_PUT]") w))
  \/ (exists id j errors,
        parseInt (params_id req) = Some id /\ request_json req = Some j /\
        safeParse j = ParseError errors /\
        PUT req w = (json_response (JsonIssues errors) 400, w))
  \/ (exists id j data n,
        parseInt (params_id req) = Some id /\ request_json req = Some j /\
        safeParse j = ParseSuccess data /\
        first_failure (put_script id data) w = Some n /\
        PUT req w =
          (internal_error,
           {| db := apply_all (firstn n (put_script id data)) (db w);
              trace := trace w ++ List.map Query (firstn (S n) (put_script id data))
                       ++ [ConsoleError "[API_ORDERS_ID_PUT]"] |}))
  \/ (exists id j data,
        parseInt (params_id req) = Some id /\ request_json req = Some j /\
        safeParse j = ParseSuccess data /\
        first_failure (put_script id data) w = None /\
        PUT req w =
          (updated id,
           {| db := apply_all (put_script id data) (db w);
              trace := trace w ++ List.map Query (put_script id data)
                       ++ [Revalidate TagOrders; Revalidate (TagOrder id)] |})).
Proof.
  destruct (parseInt (params_id req)) as [id|] eqn:Hid.
  - destruct (request_json req) as [j|] eqn:Hj.
    + destruct (safeParse j) as [data|errors] eqn:Hv.
      * pose proof (PUT_valid req w id j data Hid Hj Hv) as E.
        destruct (Route.first_failure _ _ _) as [n|] eqn:Hn.
        -- right; right; right; left. exists id, j, data, n. auto.
        -- right; right; right; right. exists id, j, data. auto.
      * right; right; left. exists id, j, errors. repeat split; try assumption.
        unfold Route.PUT, try_catch. rewrite Hid.
        unfold bind, request_json_of. now rewrite Hj, Hv.
    + right; left. exists id. repeat split.
      unfold Route.PUT, try_catch. rewrite Hid.
      unfold bind, request_json_of. now rewrite Hj.
  - left. split; [reflexivity|]. unfold Route.PUT, try_catch. now rewrite Hid.
Qed.

Lemma logged_app (a b : list event) : logged (a ++ b) = logged a ++ logged b.
Proof. apply flat_map_app. Qed.

Lemma logged_queries (ss : list stmt) : logged (List.map Query ss) = [].
Proof. induction ss; simpl; auto. Qed.

(** Split a run of GET along the tests it makes. *)
Ltac run_GET :=
  unfold Route.GET, try_catch, bind, Route.executeQuery, ret, emit;
  repeat (cbn [fst snd db trace status payload text_response json_response apply_stmt];
          match goal with
          | |- context [match parseInt ?s with _ => _ end] =>
              destruct (parseInt s) eqn:?
          | |- context [if fails ?w ?s then _ else _] =>
              destruct (fails w s) eqn:?
          | |- context [match query_rows ?d ?s with _ => _ end] =>
              destruct (query_rows d s) eqn:?
          end);
  cbn [fst snd db trace status payload text_response json_response apply_stmt].

(** X1.  GET only reads: whatever the request and whichever query is
    rejected, the database is left as it was, no cache tag is invalidated,
    and GET has issued at most four statements, none of which writes. *)
Theorem GET_read_only (req : request json) (w : world) :
  db (snd (GET req w)) = db w /\
  revalidated (trace (snd (GET req w))) = revalidated (trace w) /\
  exists qs,
    queries (trace (snd (GET req w))) = queries (trace w) ++ qs /\
    (List.length qs <= 4)%nat /\
    Forall (fun s => written_table s = None) qs.
Proof.
  split; [|split].
  - run_GET; reflexivity.
  - run_GET; rewrite ?revalidated_app; simpl; now rewrite ?app_nil_r.
  - run_GET; rewrite ?queries_app; simpl; rewrite ?app_nil_r, <- ?app_assoc;
      simpl; eexists; (split; [try reflexivity; symmetry; apply app_nil_r|]);
      simpl; split; try lia; repeat constructor.
Qed.

(** X2.  GET answers 200, 400, 404 or 500 and nothing else; PUT answers 200,
    400 or 500: it never answers 404. *)
Theorem handler_status_codes (req : request json) (w : world) :
  (status (fst (GET req w)) = 200 \/ status (fst (GET req w)) = 400 \/
   status (fst (GET req w)) = 404 \/ status (fst (GET req w)) = 500) /\
  (status (fst (PUT req w)) = 200 \/ status (fst (PUT req w)) = 400 \/
   status (fst (PUT req w)) = 500).
Proof.
  split.
  - run_GET; auto.
  - destruct (PUT_cases req w)
      as [[_ E]|[(id & _ & _ & E)|[(id & j & e & _ & _ & _ & E)|
          [(id & j & d & n & _ & _ & _ & _ & E)|(id & j & d & _ & _ & _ & _ & E)]]]];
      rewrite E; simpl; auto.
Qed.

(** X3.  The handlers write to the console exactly when they answer 500, once,
    under their own label; a 200, 400 or 404 logs nothing. *)
Theorem errors_logged_exactly_on_500 (req : request json) (w : world) :
  ((status (fst (GET req w)) = 500 /\
    logged (trace (snd (GET req w))) = logged (trace w) ++ ["[API_ORDERS_ID_GET]"%string])
   \/ (status (fst (GET req w)) <> 500 /\
       logged (trace (snd (GET req w))) = logged (trace w))) /\
  ((status (fst (PUT req w)) = 500 /\
    logged (trace (snd (PUT req w))) = logged (trace w) ++ ["[API_ORDERS_ID_PUT]"%string])
   \/ (status (fst (PUT req w)) <> 500 /\
       logged (trace (snd (PUT req w))) = logged (trace w))).
Proof.
  split.
  - run_GET;
      first [ left; split; [reflexivity|];
              rewrite ?logged_app; simpl; now rewrite ?app_nil_r
            | right; split; [discriminate|];
              rewrite ?logged_app; simpl; now rewrite ?app_nil_r ].
  - destruct (PUT_cases req w)
      as [[_ E]|[(id & _ & _ & E)|[(id & j & e & _ & _ & _ & E)|
          [(id & j & d & n & _ & _ & _ & _ & E)|(id & j & d & _ & _ & _ & _ & E)]]]];
      rewrite E; cbn [fst snd status trace text_response json_response emit];
      first [ left; split; [reflexivity|];
              rewrite ?logged_app, ?logged_queries; simpl; now rewrite ?app_nil_r
            | right; split; [discriminate|];
              rewrite ?logged_app, ?logged_queries; simpl; now rewrite ?app_nil_r ].
Qed.

(** X4.  When the id parses and one of the reads of GET is rejected (the
    header lookup, or a later read once a header row was found), GET answers
    500 with the generic message: no partial aggregate is returned, and no
    read is issued after the rejected one. *)
Theorem GET_query_failure (req : request json) (w : world) (id : Z) (n : nat) :
  parseInt (params_id req) = Some id ->
  first_failure (get_script id) w = Some n ->
  n = 0%nat \/ query_rows (db w) (SelectOrder id) <> [] ->
  GET req w =
    (internal_error,
     {| db := db w;
        trace := trace w ++ List.map Query (firstn (S n) (get_script id))
                 ++ [ConsoleError "[API_ORDERS_ID_GET]"] |}).
Proof.
  intros Hid Hn Hrows. unfold Route.GET, try_catch. rewrite Hid.
  unfold get_script in *. simpl in Hn. unfold after_all in Hn. simpl in Hn.
  unfold bind, Route.executeQuery, emit. simpl.
  destruct (fails w (SelectOrder id)).
  { injection Hn as <-. simpl. now rewrite <- !app_assoc. }
  destruct (query_rows (db w) (SelectOrder id)) as [|header rest].
  { destruct Hrows as [->|Hrows]; [|congruence].
    destruct (fails _ (SelectItems id)); [discriminate|].
    destruct (fails _ (SelectTrucks id)); [discriminate|].
    destruct (fails _ (SelectDrivers id)); discriminate. }
  destruct (fails _ (SelectItems id)).
  { injection Hn as <-. simpl. now rewrite <- !app_assoc. }
  destruct (fails _ (SelectTrucks id)).
  { injection Hn as <-. simpl. now rewrite <- !app_assoc. }
  destruct (fails _ (SelectDrivers id)).
  { injection Hn as <-. simpl. now rewrite <- !app_assoc. }
  discriminate.
Qed.

(** X5.  GET looks at the first row of the header lookup only: two query
    layers that answer the other reads alike and whose header lookups start
    with the same row (or are both empty) give the same response and the
    same world. *)
Theorem GET_uses_first_header_row (req : request json) (w : world) (id : Z)
    (query_rows' : database -> stmt -> list row) :
  parseInt (params_id req) = Some id ->
  hd_error (query_rows' (db w) (SelectOrder id))
    = hd_error (query_rows (db w) (SelectOrder id)) ->
  (forall s, s <> SelectOrder id -> query_rows' (db w) s = query_rows (db w) s) ->
  Route.GET (json:=json) (zod_issue:=zod_issue) StringToNumber query_rows' fails req w
  = GET req w.
Proof.
  intros Hid Hhd Hsame. unfold Route.GET, try_catch. rewrite Hid.
  unfold bind, Route.executeQuery, emit. simpl.
  destruct (fails w (SelectOrder id)); [reflexivity|].
  destruct (query_rows' (db w) (SelectOrder id)) as [|h' r'];
    destruct (query_rows (db w) (SelectOrder id)) as [|h r];
    simpl in Hhd; try discriminate; [reflexivity|].
  injection Hhd as ->.
  destruct (fails _ (SelectItems id)); [reflexivity|].
  destruct (fails _ (SelectTrucks id)); [reflexivity|].
  destruct (fails _ (SelectDrivers id)); [reflexivity|].
  simpl. now rewrite !Hsame by discriminate.
Qed.

(** *** Ids that [parseInt] reads alike *)

Lemma leading_digits_stop (ds : list N) (c : N) (t : jsstring) :
  forallb is_digit ds = true -> is_digit c = false ->
  leading_digits (ds ++ c :: t) = leading_digits ds.
Proof.
  intros Hds Hc. induction ds as [|d rest IH]; simpl in *.
  - now rewrite Hc.
  - apply andb_prop in Hds as [Hd Hrest]. rewrite Hd. now rewrite IH.
Qed.

Lemma is_digit_not_white_space (c : N) : is_digit c = true -> is_white_space c = false.
Proof.
  unfold is_digit. intros H. apply andb_prop in H as [Hlo Hhi].
  apply N.leb_le in Hlo, Hhi.
  assert (E : (c = 48 \/ c = 49 \/ c = 50 \/ c = 51 \/ c = 52 \/ c = 53 \/
               c = 54 \/ c = 55 \/ c = 56 \/ c = 57)%N) by lia.
  repeat (destruct E as [E|E]; [subst; reflexivity|]). subst; reflexivity.
Qed.

Lemma parseInt_ignores_suffix (s : jsstring) (c : N) (t : jsstring) :
  is_integer_literal s = true -> is_digit c = false ->
  parseInt (s ++ c :: t) = parseInt s.
Proof.
  unfold is_integer_literal, parseInt. destruct s as [|d rest]; [discriminate|].
  intros H Hc. destruct (d =? 45)%N eqn:Eminus.
  - apply N.eqb_eq in Eminus. subst d. simpl in *.
    destruct rest as [|e rest']; [discriminate|].
    now rewrite (leading_digits_stop (e :: rest') c t H Hc).
  - destruct (d =? 43)%N eqn:Eplus.
    + apply N.eqb_eq in Eplus. subst d. simpl in *.
      destruct rest as [|e rest']; [discriminate|].
      now rewrite (leading_digits_stop (e :: rest') c t H Hc).
    + cbn [orb] in H.
      assert (Hd : is_digit d = true) by (simpl in H; now apply andb_prop in H).
      cbn [app trim_start]. rewrite (is_digit_not_white_space d Hd), Eminus, Eplus.
      change (d :: rest ++ c :: t) with ((d :: rest) ++ c :: t).
      now rewrite (leading_digits_stop (d :: rest) c t H Hc).
Qed.

(** X6.  Whatever follows an integer in the path id is ignored: when [s] is
    an integer literal and [c] is not a digit, a request on [s ++ c :: t] is
    handled exactly as the request on [s], by GET and by PUT. *)
Theorem id_suffix_ignored (s : jsstring) (c : N) (t : jsstring)
    (body : option json) (w : world) :
  is_integer_literal s = true ->
  is_digit c = false ->
  GET {| params_id := s ++ c :: t; request_json := body |} w
  = GET {| params_id := s; request_json := body |} w /\
  PUT {| params_id := s ++ c :: t; request_json := body |} w
  = PUT {| params_id := s; request_json := body |} w.
Proof.
  intros Hs Hc. unfold Route.GET, Route.PUT, request_json_of.
  cbn [params_id request_json].
  now rewrite (parseInt_ignores_suffix s c t Hs Hc).
Qed.

(** *** What a prefix of the write sequence does to the tables *)

Lemma preserved_all {A : Type} (col : database -> A) (P : stmt -> Prop) :
  (forall s d, P s -> col (apply_stmt s d) = col d) ->
  forall ss d, Forall P ss -> col (apply_all ss d) = col d.
Proof.
  intros Hcol ss. induction ss as [|s rest IH]; intros d Hss; simpl.
  - reflexivity.
  - inversion Hss; subst. unfold apply_all in IH. rewrite IH by assumption.
    now apply Hcol.
Qed.

Lemma put_script_bound (id : Z) (data : update_payload) :
  Forall (fun s => stmt_order s = id /\ written_table s <> None) (put_script id data).
Proof.
  unfold put_script.
  repeat first
    [ apply Forall_nil
    | apply Forall_cons; [split; [reflexivity | discriminate]|]
    | apply Forall_app; split
    | apply Forall_map, Forall_forall; intros; split; [reflexivity | discriminate] ].
Qed.

Lemma update_pedido_id (id : Z) (data : order_data) (now : Z) (p : pedido) :
  p_id (update_pedido id data now p) = p_id p /\
  p_other (update_pedido id data now p) = p_other p.
Proof. unfold update_pedido. destruct (p_id p =? id); split; reflexivity. Qed.

Lemma pedidos_keys_kept (s : stmt) (d : database) :
  List.map p_id (pedidos (apply_stmt s d)) = List.map p_id (pedidos d) /\
  List.map p_other (pedidos (apply_stmt s d)) = List.map p_other (pedidos d).
Proof.
  destruct s; simpl; try (split; reflexivity).
  rewrite !map_map. split; apply map_ext; intros p; apply update_pedido_id.
Qed.

Lemma filter_other_order {A : Type} (key : A -> Z) (id id' : Z) (l : list A) :
  id <> id' ->
  filter (fun r => key r =? id') (filter (other_order key id) l)
  = filter (fun r => key r =? id') l.
Proof.
  intros Hne. induction l as [|r rest IH]; simpl; [reflexivity|].
  unfold other_order at 1. destruct (key r =? id) eqn:E; simpl.
  - apply Z.eqb_eq in E. destruct (key r =? id') eqn:E'; [|exact IH].
    apply Z.eqb_eq in E'. congruence.
  - now rewrite IH.
Qed.

Lemma filter_update_pedido (id id' : Z) (data : order_data) (now : Z)
    (l : list pedido) :
  id <> id' ->
  filter (fun p => p_id p =? id') (List.map (update_pedido id data now) l)
  = filter (fun p => p_id p =? id') l.
Proof.
  intros Hne. induction l as [|p rest IH]; simpl; [reflexivity|].
  rewrite IH. destruct (update_pedido_id id data now p) as [Eid _]. rewrite Eid.
  destruct (p_id p =? id') eqn:E'; [|reflexivity]. f_equal.
  unfold update_pedido. destruct (p_id p =? id) eqn:E; [|reflexivity].
  apply Z.eqb_eq in E, E'. congruence.
Qed.

Lemma other_order_rows_kept (s : stmt) (d : database) (id' : Z) :
  stmt_order s <> id' ->
  order_items (apply_stmt s d) id' = order_items d id' /\
  order_trucks (apply_stmt s d) id' = order_trucks d id' /\
  order_drivers (apply_stmt s d) id' = order_drivers d id' /\
  filter (fun p => p_id p =? id') (pedidos (apply_stmt s d))
  = filter (fun p => p_id p =? id') (pedidos d).
Proof.
  intros Hne. assert (Hneb : forall id, id <> id' -> (id =? id') = false)
    by (intros; now apply Z.eqb_neq).
  unfold order_items, order_trucks, order_drivers.
  destruct s; simpl in *; repeat split;
    rewrite ?filter_other_order by assumption;
    rewrite ?filter_app; simpl; rewrite ?Hneb by assumption;
    rewrite ?app_nil_r; try reflexivity.
  now apply filter_update_pedido.
Qed.

(** X7.  A PUT that answers 200 has rewritten the header of its order and no
    other: the header table is the old one with [update_pedido] applied, so
    the row with the path id carries the submitted header fields and the
    server time, and every row keeps its id and its other columns. *)
Theorem PUT_updates_header (req : request json) (w : world) (id : Z) (j : json)
    (data : update_payload) :
  parseInt (params_id req) = Some id ->
  request_json req = Some j ->
  safeParse j = ParseSuccess data ->
  status (fst (PUT req w)) = 200 ->
  let d' := db (snd (PUT req w)) in
  pedidos d'
  = List.map (update_pedido id (orderData data) (getdate (db w))) (pedidos (db w)) /\
  (forall p, In p (pedidos d') -> p_id p = id ->
             p_data p = orderData data /\ p_updated_at p = getdate (db w)) /\
  (forall p, In p (pedidos d') -> p_id p <> id -> In p (pedidos (db w))).
Proof.
  intros Hid Hj Hv. rewrite (PUT_valid req w id j data Hid Hj Hv).
  destruct (Route.first_failure _ _ _);
    cbn [fst snd status db text_response json_response]; [discriminate|]. intros _.
  assert (E : pedidos (apply_all (put_script id data) (db w))
              = List.map (update_pedido id (orderData data) (getdate (db w)))
                  (pedidos (db w))).
  { unfold put_script. cbn [app].
    change (apply_all (?s :: ?l) ?d) with (apply_all l (apply_stmt s d)).
    rewrite (untouched_all pedidos Pedidos pedidos_untouched); [reflexivity|].
    apply Forall_cons; [discriminate|]. other_tables. }
  cbv zeta. rewrite E. split; [reflexivity|]. split.
  - intros p Hin Hp. apply in_map_iff in Hin as (q & <- & _).
    unfold update_pedido in *. destruct (p_id q =? id) eqn:Eq; simpl in *.
    + split; reflexivity.
    + rewrite Hp, Z.eqb_refl in Eq. discriminate.
  - intros p Hin Hp. apply in_map_iff in Hin as (q & <- & Hq).
    unfold update_pedido in *. destruct (p_id q =? id) eqn:Eq; simpl in *.
    + apply Z.eqb_eq in Eq. congruence.
    + exact Hq.
Qed.

(** X8.  No PUT creates or deletes an order: whatever the request and
    however the run ends, the header table holds the same ids, in the same
    order, with the same untouched columns. *)
Theorem PUT_keeps_the_orders (req : request json) (w : world) :
  List.map p_id (pedidos (db (snd (PUT req w)))) = List.map p_id (pedidos (db w)) /\
  List.map p_other (pedidos (db (snd (PUT req w))))
  = List.map p_other (pedidos (db w)).
Proof.
  assert (K : forall ss d,
             List.map p_id (pedidos (apply_all ss d)) = List.map p_id (pedidos d) /\
             List.map p_other (pedidos (apply_all ss d)) = List.map p_other (pedidos d)).
  { intros ss. induction ss as [|s rest IH]; intros d; [split; reflexivity|].
    change (apply_all (s :: rest) d) with (apply_all rest (apply_stmt s d)).
    destruct (IH (apply_stmt s d)) as [-> ->]. apply pedidos_keys_kept. }
  destruct (PUT_cases req w)
    as [[_ E]|[(id & _ & _ & E)|[(id & j & e & _ & _ & _ & E)|
        [(id & j & d & n & _ & _ & _ & _ & E)|(id & j & d & _ & _ & _ & _ & E)]]]];
    rewrite E; cbn [snd db emit]; first [split; reflexivity | apply K].
Qed.

(** X9.  A PUT leaves every other order alone: for an id other than the one
    parsed from the path, the items, truck links, driver links and header
    rows are after the run what they were before, whether the run succeeds,
    is refused, or fails half way. *)
Theorem PUT_leaves_other_orders (req : request json) (w : world) (id' : Z) :
  parseInt (params_id req) <> Some id' ->
  let d' := db (snd (PUT req w)) in
  order_items d' id' = order_items (db w) id' /\
  order_trucks d' id' = order_trucks (db w) id' /\
  order_drivers d' id' = order_drivers (db w) id' /\
  filter (fun p => p_id p =? id') (pedidos d')
  = filter (fun p => p_id p =? id') (pedidos (db w)).
Proof.
  intros Hne.
  assert (K : forall id ss d,
             id <> id' -> Forall (fun s => stmt_order s = id) ss ->
             order_items (apply_all ss d) id' = order_items d id' /\
             order_trucks (apply_all ss d) id' = order_trucks d id' /\
             order_drivers (apply_all ss d) id' = order_drivers d id' /\
             filter (fun p => p_id p =? id') (pedidos (apply_all ss d))
             = filter (fun p => p_id p =? id') (pedidos d)).
  { intros id ss. induction ss as [|s rest IH]; intros d Hid Hss.
    - repeat split.
    - inversion Hss as [|? ? Hs Hrest]; subst.
      change (apply_all (s :: rest) d) with (apply_all rest (apply_stmt s d)).
      destruct (IH (apply_stmt s d) Hid Hrest) as (-> & -> & -> & ->).
      now apply other_order_rows_kept. }
  assert (B : forall id data, Forall (fun s => stmt_order s = id) (put_script id data)).
  { intros id data. eapply Forall_impl; [|apply put_script_bound]. now intros s [H _]. }
  cbv zeta.
  destruct (PUT_cases req w)
    as [[_ E]|[(id & _ & _ & E)|[(id & j & e & _ & _ & _ & E)|
        [(id & j & d & n & Hid & _ & _ & _ & E)|(id & j & d & Hid & _ & _ & _ & E)]]]];
    rewrite E; cbn [snd db emit]; try (repeat split; reflexivity).
  - apply (K id); [congruence | apply Forall_firstn, B].
  - apply (K id); [congruence | apply B].
Qed.

(** X10.  PUT does not check that the order exists.  When no header row has
    the path id and every statement goes through, it still answers 200: the
    header table is unchanged, and the child tables now hold the submitted
    items, trucks and drivers under that id. *)
Theorem PUT_on_missing_order (req : request json) (w : world) (id : Z) (j : json)
    (data : update_payload) :
  parseInt (params_id req) = Some id ->
  request_json req = Some j ->
  safeParse j = ParseSuccess data ->
  first_failure (put_script id data) w = None ->
  Forall (fun p => p_id p <> id) (pedidos (db w)) ->
  let d' := db (snd (PUT req w)) in
  status (fst (PUT req w)) = 200 /\
  pedidos d' = pedidos (db w) /\
  order_items d' id = items data /\
  order_trucks d' id = truck_ids data /\
  order_drivers d' id = driver_ids data.
Proof.
  intros Hid Hj Hv Hok Hmissing.
  rewrite (PUT_valid req w id j data Hid Hj Hv), Hok.
  cbn [fst snd status db json_response]. split; [reflexivity|]. split.
  - unfold put_script. cbn [app].
    change (apply_all (?s :: ?l) ?d) with (apply_all l (apply_stmt s d)).
    rewrite (untouched_all pedidos Pedidos pedidos_untouched)
      by (apply Forall_cons; [discriminate|]; other_tables).
    simpl. induction (pedidos (db w)) as [|p rest IH]; simpl; [reflexivity|].
    inversion Hmissing as [|? ? Hp Hrest]; subst. rewrite (IH Hrest).
    unfold update_pedido. apply Z.eqb_neq in Hp. now rewrite Hp.
  - apply put_script_children.
Qed.

(** X14.  Every statement a PUT issues is a write bound to the id parsed
    from the path: it sends no SELECT, and no statement for another order. *)
Theorem PUT_statements_bound_to_id (req : request json) (w : world) :
  exists qs,
    queries (trace (snd (PUT req w))) = queries (trace w) ++ qs /\
    Forall (fun s => parseInt (params_id req) = Some (stmt_order s) /\
                     written_table s <> None) qs.
Proof.
  destruct (PUT_cases req w)
    as [[_ E]|[(id & _ & _ & E)|[(id & j & e & _ & _ & _ & E)|
        [(id & j & d & n & Hid & _ & _ & _ & E)|(id & j & d & Hid & _ & _ & _ & E)]]]];
    rewrite E; cbn [snd trace emit].
  - exists []. now rewrite app_nil_r.
  - exists []. rewrite queries_app. simpl. now rewrite !app_nil_r.
  - exists []. now rewrite app_nil_r.
  - exists (firstn (S n) (put_script id d)). split.
    + rewrite !queries_app, queries_script.
      change (queries [ConsoleError "[API_ORDERS_ID_PUT]"]) with (@nil stmt).
      now rewrite app_nil_r.
    + apply Forall_firstn. eapply Forall_impl; [|apply put_script_bound].
      intros s [<- H]. now split.
  - exists (put_script id d). split.
    + rewrite !queries_app, queries_script.
      change (queries [Revalidate TagOrders; Revalidate (TagOrder id)])
        with (@nil stmt).
      now rewrite app_nil_r.
    + eapply Forall_impl; [|apply put_script_bound]. intros s [<- H]. now split.
Qed.

(** *** Where a failed PUT leaves the child collections *)

Lemma inserted_all {X : Type} (col : database -> list X) (ins : X -> stmt) :
  (forall x d, col (apply_stmt (ins x) d) = col d ++ [x]) ->
  forall ys d, col (apply_all (List.map ins ys) d) = col d ++ ys.
Proof.
  intros Hins ys. induction ys as [|y rest IH]; intros d.
  - simpl. now rewrite app_nil_r.
  - change (apply_all (List.map ins (y :: rest)) d)
      with (apply_all (List.map ins rest) (apply_stmt (ins y) d)).
    rewrite IH, Hins. now rewrite <- app_assoc.
Qed.

(** One phase of the write sequence (a DELETE, then one INSERT per element)
    between statements on other tables: a prefix that stops before the DELETE
    leaves the collection as it was, a longer one leaves the elements inserted
    so far. *)
Lemma phase_prefix {X : Type} (T : table) (col : database -> list X)
    (del : stmt) (ins : X -> stmt) (pre post : list stmt) (xs : list X) :
  (forall s d, written_table s <> Some T -> col (apply_stmt s d) = col d) ->
  (forall d, col (apply_stmt del d) = []) ->
  (forall x d, col (apply_stmt (ins x) d) = col d ++ [x]) ->
  Forall (fun s => written_table s <> Some T) pre ->
  Forall (fun s => written_table s <> Some T) post ->
  forall n d,
    col (apply_all (firstn n (pre ++ del :: List.map ins xs ++ post)) d)
    = if (n <=? List.length pre)%nat then col d
      else firstn (n - List.length pre - 1) xs.
Proof.
  intros Hun Hdel Hins Hpre Hpost n d.
  rewrite firstn_app, apply_all_app.
  destruct (n <=? List.length pre)%nat eqn:E.
  - apply Nat.leb_le in E. replace (n - List.length pre)%nat with 0%nat by lia.
    cbn [firstn]. change (apply_all [] ?x) with x.
    apply (preserved_all col _ Hun). now apply Forall_firstn.
  - apply Nat.leb_gt in E. rewrite (@firstn_all2 _ n pre) by lia.
    destruct (n - List.length pre)%nat as [|m] eqn:Em; [lia|].
    replace (S m - 1)%nat with m by lia. cbn [firstn].
    change (apply_all (del :: ?l) ?x) with (apply_all l (apply_stmt del x)).
    rewrite firstn_app, apply_all_app.
    rewrite (preserved_all col _ Hun) by now apply Forall_firstn.
    rewrite firstn_map, (inserted_all col ins Hins), Hdel. reflexivity.
Qed.

Lemma order_items_other_table (id : Z) (s : stmt) (d : database) :
  written_table s <> Some Items -> order_items (apply_stmt s d) id = order_items d id.
Proof. intros H. unfold order_items. now rewrite items_untouched. Qed.

Lemma order_trucks_other_table (id : Z) (s : stmt) (d : database) :
  written_table s <> Some Camiones ->
  order_trucks (apply_stmt s d) id = order_trucks d id.
Proof. intros H. unfold order_trucks. now rewrite camiones_untouched. Qed.

Lemma order_drivers_other_table (id : Z) (s : stmt) (d : database) :
  written_table s <> Some Choferes ->
  order_drivers (apply_stmt s d) id = order_drivers d id.
Proof. intros H. unfold order_drivers. now rewrite choferes_untouched. Qed.

(** X11.  When the statement at position [n] of the write sequence is the
    first one rejected, each child collection of the order is either still the
    old one (its DELETE was not reached) or the submitted elements inserted so
    far: a failure while the items are being inserted leaves the order with a
    strict prefix of the submitted items and its old trucks and drivers. *)
Theorem PUT_failure_partial_collections (req : request json) (w : world) (id : Z)
    (j : json) (data : update_payload) (n : nat) :
  parseInt (params_id req) = Some id ->
  request_json req = Some j ->
  safeParse j = ParseSuccess data ->
  first_failure (put_script id data) w = Some n ->
  let d' := db (snd (PUT req w)) in
  let a := List.length (items data) in
  let b := List.length (truck_ids data) in
  order_items d' id
  = (if (n <=? 1)%nat then order_items (db w) id
     else firstn (n - 2) (items data)) /\
  order_trucks d' id
  = (if (n <=? 2 + a)%nat then order_trucks (db w) id
     else firstn (n - (3 + a)) (truck_ids data)) /\
  order_drivers d' id
  = (if (n <=? 3 + a + b)%nat then order_drivers (db w) id
     else firstn (n - (4 + a + b)) (driver_ids data)).
Proof.
  intros Hid Hj Hv Hn. rewrite (PUT_valid req w id j data Hid Hj Hv), Hn.
  cbn [snd db]. cbv zeta.
  set (U := UpdateOrder id (orderData data)).
  set (MI := List.map (InsertItem id) (items data)).
  set (MT := List.map (InsertTruck id) (truck_ids data)).
  set (MD := List.map (InsertDriver id) (driver_ids data)).
  repeat split.
  - pose proof (phase_prefix Items (fun d => order_items d id)
                  (DeleteItems id) (InsertItem id) [U]
                  (DeleteTrucks id :: MT ++ DeleteDrivers id :: MD) (items data)
                  (order_items_other_table id) (order_items_deleted id)
                  (fun x d => order_items_inserted id [x] d)) as P.
    cbv beta in P. change (put_script id data)
      with ([U] ++ DeleteItems id :: MI
                ++ DeleteTrucks id :: MT ++ DeleteDrivers id :: MD).
    rewrite P by (subst U MT MD; other_tables).
    cbn [List.length]. now replace (n - 1 - 1)%nat with (n - 2)%nat by lia.
  - pose proof (phase_prefix Camiones (fun d => order_trucks d id)
                  (DeleteTrucks id) (InsertTruck id) (U :: DeleteItems id :: MI)
                  (DeleteDrivers id :: MD) (truck_ids data)
                  (order_trucks_other_table id) (order_trucks_deleted id)
                  (fun x d => order_trucks_inserted id [x] d)) as P.
    cbv beta in P. change (put_script id data)
      with ((U :: DeleteItems id :: MI)
              ++ DeleteTrucks id :: MT ++ DeleteDrivers id :: MD).
    rewrite P by (subst U MI MD; other_tables).
    replace (List.length (U :: DeleteItems id :: MI))
      with (2 + List.length (items data))%nat
      by (subst MI; simpl; now rewrite length_map).
    now replace (n - (2 + List.length (items data)) - 1)%nat
      with (n - (3 + List.length (items data)))%nat by lia.
  - pose proof (phase_prefix Choferes (fun d => order_drivers d id)
                  (DeleteDrivers id) (InsertDriver id)
                  (U :: DeleteItems id :: MI ++ DeleteTrucks id :: MT)
                  [] (driver_ids data)
                  (order_drivers_other_table id) (order_drivers_deleted id)
                  (fun x d => order_drivers_inserted id [x] d)) as P.
    cbv beta in P.
    replace (put_script id data)
      with ((U :: DeleteItems id :: MI ++ DeleteTrucks id :: MT)
              ++ DeleteDrivers id :: MD ++ [])
      by (unfold put_script; subst U MI MT MD; simpl;
          now rewrite app_nil_r, <- app_assoc).
    rewrite P by (subst U MI MT; other_tables).
    replace (List.length (U :: DeleteItems id :: MI ++ DeleteTrucks id :: MT))
      with (3 + List.length (items data) + List.length (truck_ids data))%nat
      by (subst MI MT; simpl; rewrite length_app; simpl; rewrite !length_map; lia).
    now replace (n - (3 + List.length (items data) + List.length (truck_ids data)) - 1)%nat
      with (n - (4 + List.length (items data) + List.length (truck_ids data)))%nat
      by lia.
Qed.

(** *** The id check, seen from the outside *)

Lemma GET_400_only_when_unparsed (req : request json) (w : world) :
  status (fst (GET req w)) = 400 -> parseInt (params_id req) = None.
Proof.
  unfold Route.GET, try_catch.
  destruct (parseInt (params_id req)) as [id|]; [|reflexivity].
  unfold bind, Route.executeQuery, ret, emit.
  repeat (cbn [fst snd db trace apply_stmt status text_response json_response];
          match goal with
          | |- context [if fails ?w ?s then _ else _] => destruct (fails w s)
          | |- context [match query_rows ?d ?s with _ => _ end] =>
              destruct (query_rows d s)
          end);
    cbn [fst snd db trace apply_stmt status text_response json_response];
    discriminate.
Qed.

Lemma PUT_invalid_id_only_when_unparsed (req : request json) (w : world) :
  payload (fst (PUT req w)) = Text "ID de pedido inválido" ->
  parseInt (params_id req) = None.
Proof.
  destruct (PUT_cases req w)
    as [[H _]|[(id & _ & _ & E)|[(id & j & e & _ & _ & _ & E)|
        [(id & j & d & n & _ & _ & _ & _ & E)|(id & j & d & _ & _ & _ & _ & E)]]]];
    [intros _; exact H | rewrite E; simpl; discriminate ..].
Qed.

(** *** What a status tells the caller *)

(** X15.  The status of a GET tells what happened: 400 exactly when the id
    does not parse, and then the world is untouched; 404 only when the header
    lookup went through and returned no row; 200 only when a header row was
    found and all four reads went through. *)
Theorem GET_status_meaning (req : request json) (w : world) :
  (status (fst (GET req w)) = 400 <-> parseInt (params_id req) = None) /\
  (status (fst (GET req w)) = 400 -> snd (GET req w) = w) /\
  (status (fst (GET req w)) = 404 ->
   exists id, parseInt (params_id req) = Some id /\
              fails w (SelectOrder id) = false /\
              query_rows (db w) (SelectOrder id) = []) /\
  (status (fst (GET req w)) = 200 ->
   exists id header rest,
     parseInt (params_id req) = Some id /\
     query_rows (db w) (SelectOrder id) = header :: rest /\
     first_failure (get_script id) w = None).
Proof.
  unfold Route.GET, try_catch.
  destruct (parseInt (params_id req)) as [id|] eqn:Hid.
  2:{ simpl. repeat split; try discriminate; auto. }
  unfold bind, Route.executeQuery, ret, emit. unfold get_script. simpl.
  unfold after_all. simpl.
  destruct (fails w (SelectOrder id)) eqn:F1; simpl.
  { repeat split; try discriminate. }
  destruct (query_rows (db w) (SelectOrder id)) as [|header rest] eqn:R; simpl.
  { repeat split; try discriminate. intros _. exists id. auto. }
  destruct (fails _ (SelectItems id)) eqn:F2; simpl.
  { repeat split; try discriminate. }
  destruct (fails _ (SelectTrucks id)) eqn:F3; simpl.
  { repeat split; try discriminate. }
  destruct (fails _ (SelectDrivers id)) eqn:F4; simpl.
  { repeat split; try discriminate. }
  repeat split; try discriminate. intros _. exists id, header, rest.
  split; [reflexivity|]. split; [exact R|]. now rewrite F1, F2, F3, F4.
Qed.

(** X16.  A PUT answers 400 exactly when the id does not parse or the parsed
    body is rejected by the validator; and a 400 means nothing has happened:
    no statement, no log, no invalidation, the world is the one before. *)
Theorem PUT_400_meaning (req : request json) (w : world) :
  (status (fst (PUT req w)) = 400 <->
   parseInt (params_id req) = None \/
   exists j errors, request_json req = Some j /\ safeParse j = ParseError errors) /\
  (status (fst (PUT req w)) = 400 -> snd (PUT req w) = w).
Proof.
  destruct (PUT_cases req w)
    as [[H E]|[(id & H & Hj & E)|[(id & j & e & H & Hj & Hv & E)|
        [(id & j & d & n & H & Hj & Hv & _ & E)|(id & j & d & H & Hj & Hv & _ & E)]]]];
    rewrite E; cbn [fst snd status text_response json_response];
    (split; [split|]); try discriminate; try reflexivity; auto.
  - intros [H'|(j & e & Hj' & _)]; congruence.
  - intros _. right. eauto.
  - intros [H'|(j' & e & Hj' & Hv')]; [congruence|].
    rewrite Hj in Hj'. injection Hj' as <-. congruence.
  - intros [H'|(j' & e & Hj' & Hv')]; [congruence|].
    rewrite Hj in Hj'. injection Hj' as <-. congruence.
Qed.

End Properties.

(* ================================================================== *)
(** ** The handlers at work on the sample instance *)
(* ================================================================== *)

Import Sample.

Example parseInt_42 : parseInt (str "42") = Some 42.
Proof. reflexivity. Qed.

Example parseInt_abc : parseInt (str "abc") = None.
Proof. reflexivity. Qed.

Example parseInt_spaces_sign : parseInt (str "  -17") = Some (-17).
Proof. reflexivity. Qed.

Example parseInt_decimal_point : parseInt (str "1.5") = Some 1.
Proof. reflexivity. Qed.

Example parseInt_sign_only : parseInt (str "-") = None.
Proof. reflexivity. Qed.

Lemma digit_not_white_space (c : N) : is_digit c = true -> is_white_space c = false.
Proof.
  unfold is_digit. intros H. apply andb_prop in H as [Hlo Hhi].
  apply N.leb_le in Hlo, Hhi.
  assert (E : (c = 48 \/ c = 49 \/ c = 50 \/ c = 51 \/ c = 52 \/ c = 53 \/
               c = 54 \/ c = 55 \/ c = 56 \/ c = 57)%N) by lia.
  repeat (destruct E as [E|E]; [subst; reflexivity|]). subst; reflexivity.
Qed.

Lemma digits_lead (s : jsstring) :
  s <> [] -> forallb is_digit s = true -> leading_digits s <> [].
Proof.
  destruct s as [|c rest]; [congruence|]. simpl. intros _ H.
  apply andb_prop in H as [Hc _]. rewrite Hc. discriminate.
Qed.

(** Every integer literal is accepted by [parseInt]: the ids it turns down
    are not integers. *)
Lemma integer_literal_parses (s : jsstring) :
  is_integer_literal s = true -> parseInt s <> None.
Proof.
  unfold is_integer_literal, parseInt. destruct s as [|c rest]; [discriminate|].
  destruct (c =? 45)%N eqn:Eminus.
  - apply N.eqb_eq in Eminus. subst c. simpl.
    destruct rest as [|d rest']; [discriminate|]. intros H.
    pose proof (digits_lead (d :: rest') ltac:(discriminate) H) as L.
    destruct (leading_digits (d :: rest')); [congruence | discriminate].
  - destruct (c =? 43)%N eqn:Eplus.
    + apply N.eqb_eq in Eplus. subst c. simpl.
      destruct rest as [|d rest']; [discriminate|]. intros H.
      pose proof (digits_lead (d :: rest') ltac:(discriminate) H) as L.
      destruct (leading_digits (d :: rest')); [congruence | discriminate].
    + cbn [orb]. intros H.
      pose proof (digits_lead (c :: rest) ltac:(discriminate) H) as L.
      assert (Hc : is_digit c = true) by (simpl in H; now apply andb_prop in H).
      cbn [trim_start]. rewrite (digit_not_white_space c Hc), Eminus, Eplus.
      destruct (leading_digits (c :: rest)); [congruence | discriminate].
Qed.

(** *** Instances of the claims *)

(** C1 on the spec's example: order 7 held two items, two trucks and a
    driver; after the PUT it holds the one item, truck 5 and driver 9. *)
Lemma PUT_replaces_child_collections_witness :
  let r := PUT validate (answers VNull) never (put_request "7" new_payload) start in
  status (fst r) = 200 /\
  order_items stored 7 = [old_item 11; old_item 13] /\
  order_items (db (snd r)) 7 = [kg_item] /\
  order_trucks (db (snd r)) 7 = [num 5] /\
  order_drivers (db (snd r)) 7 = [num 9].
Proof.
  split; [reflexivity|]. split; [reflexivity|].
  apply (PUT_replaces_child_collections validate (answers VNull) never
           (put_request "7" new_payload) start 7 (Some new_payload) new_payload);
    reflexivity.
Defined.

(** C6 on the same example, run twice. *)
Lemma PUT_twice_same_children_witness :
  let once := PUT validate (answers VNull) never (put_request "7" new_payload) start in
  let twice :=
    PUT validate (answers VNull) never (put_request "7" new_payload) (snd once) in
  order_items (db (snd twice)) 7 = order_items (db (snd once)) 7 /\
  order_trucks (db (snd twice)) 7 = order_trucks (db (snd once)) 7 /\
  order_drivers (db (snd twice)) 7 = order_drivers (db (snd once)) 7.
Proof.
  apply (PUT_twice_same_children validate (answers VNull) never
           (put_request "7" new_payload) start 7 (Some new_payload) new_payload);
    reflexivity.
Defined.

(** C8 with the fourth statement (the DELETE of the truck links) rejected. *)
Lemma PUT_failure_keeps_applied_prefix_witness :
  let script := put_script 7 new_payload in
  let r := PUT validate (answers VNull) (at_position 3)
             (put_request "7" new_payload) start in
  first_failure (at_position 3) script start = Some 3%nat /\
  r = (text_response "Error interno del servidor" 500,
       {| db := apply_all (firstn 3 script) stored;
          trace := [] ++ List.map Query (firstn 4 script)
                   ++ [ConsoleError "[API_ORDERS_ID_PUT]"] |}) /\
  queries (trace (snd r)) = queries [] ++ firstn 4 script /\
  ((1 <= 3)%nat ->
   pedidos (db (snd r)) = List.map (update_pedido 7 header 200) (pedidos stored)).
Proof.
  split; [reflexivity|].
  apply (PUT_failure_keeps_applied_prefix validate (answers VNull) (at_position 3)
           (put_request "7" new_payload) start 7 (Some new_payload) new_payload 3);
    reflexivity.
Defined.

(** What that failed run leaves behind: the new item, the old trucks and the
    old driver. *)
Example PUT_failure_partial_state :
  let r := PUT validate (answers VNull) (at_position 3)
             (put_request "7" new_payload) start in
  status (fst r) = 500 /\
  order_items (db (snd r)) 7 = [kg_item] /\
  order_trucks (db (snd r)) 7 = [num 1; num 3] /\
  order_drivers (db (snd r)) 7 = [num 6] /\
  revalidated (trace (snd r)) = [].
Proof. repeat split. Qed.

(** C4 with a body the validator rejects. *)
Lemma PUT_invalid_payload_witness :
  PUT validate (answers VNull) never
    {| params_id := str "7"; request_json := Some None |} start
  = (json_response (JsonIssues ["customer_id: Required"%string]) 400, start).
Proof.
  apply (PUT_invalid_payload validate (answers VNull) never
           {| params_id := str "7"; request_json := Some None |} start 7 None);
    reflexivity.
Defined.

(** C9 as amended, with id 7 and a body that is not JSON. *)
Lemma PUT_body_not_json_witness :
  let r := PUT validate (answers VNull) never (get_request "7") start in
  r = (text_response "Error interno del servidor" 500,
       emit (ConsoleError "[API_ORDERS_ID_PUT]") start) /\
  db (snd r) = stored /\
  queries (trace (snd r)) = queries [].
Proof.
  apply (PUT_body_not_json validate (answers VNull) never (get_request "7") start 7);
    reflexivity.
Defined.

(** C9 as stated fails: the body is not JSON, yet PUT answers 400, because
    the id check comes first. *)
Lemma PUT_body_not_json_bad_id_is_400 :
  request_json (get_request "abc") = None /\
  PUT validate (answers VNull) never (get_request "abc") start
  = (text_response "ID de pedido inválido" 400, start).
Proof. split; reflexivity. Qed.

(** C3 as amended, on ["abc"]. *)
Lemma invalid_id_rejected_before_database_witness :
  GET to_number (answers VNull) never (get_request "abc") start
  = (text_response (zod_issue:=string) "ID de pedido inválido" 400, start) /\
  PUT validate (answers VNull) never (get_request "abc") start
  = (text_response "ID de pedido inválido" 400, start).
Proof.
  apply (invalid_id_rejected_before_database validate to_number (answers VNull) never
           (get_request "abc") start).
  reflexivity.
Defined.

(** C3 as stated fails: ["12abc"] is not an integer, yet GET reads it as 12
    and queries the database for order 12. *)
Lemma id_with_integer_prefix_reaches_database :
  is_integer_literal (str "12abc") = false /\
  GET to_number (answers VNull) never (get_request "12abc") start
  = (text_response (zod_issue:=string) "Pedido no encontrado" 404,
     {| db := stored; trace := [Query (SelectOrder 12)] |}).
Proof. split; reflexivity. Qed.

(** C5 on order 9, for which the header lookup returns nothing. *)
Lemma GET_missing_order_witness :
  let r := GET to_number (answers VNull) never (get_request "9") start in
  r = (text_response (zod_issue:=string) "Pedido no encontrado" 404,
       emit (Query (SelectOrder 9)) start) /\
  queries (trace (snd r)) = queries [] ++ [SelectOrder 9].
Proof.
  apply (GET_missing_order to_number (answers VNull) never (get_request "9") start 9);
    reflexivity.
Defined.

(** C2 as amended, on a header with series ["A"] and folio 15. *)
Lemma GET_invoice_presence_witness :
  exists o,
    GET to_number (answers (num 15)) never (get_request "7") start
    = (json_response (zod_issue:=string) (JsonOrder o) 200,
       after_all (get_script 7) start) /\
    order o = header_row (num 15) /\
    (invoice_of o <> None <->
     truthy (get (header_row (num 15)) "invoice_series") = true /\
     truthy (get (header_row (num 15)) "invoice_number") = true) /\
    (invoice_of o <> None ->
     invoice_of o = Some {| serie := get (header_row (num 15)) "invoice_series";
                            folio := get (header_row (num 15)) "invoice_number";
                            invoice_obj_n := get (header_row (num 15)) "invoice_n" |}) /\
    (get (header_row (num 15)) "invoice_series" = VNull \/
     get (header_row (num 15)) "invoice_number" = VNull ->
     invoice_of o = None).
Proof.
  apply (GET_invoice_presence to_number (answers (num 15)) never (get_request "7")
           start 7 (header_row (num 15)) []);
    reflexivity.
Defined.

(** C2 as stated fails: series ["A"] and folio 0 are both non-null, and the
    invoice of the 200 response is null. *)
Lemma zero_folio_gives_null_invoice :
  let header := header_row (num 0) in
  let o := populatedOrder to_number header [item_row_text] [] [] in
  GET to_number (answers (num 0)) never (get_request "7") start
  = (json_response (zod_issue:=string) (JsonOrder o) 200,
     after_all (get_script 7) start) /\
  get header "invoice_series" = VStr (str "A") /\
  get header "invoice_number" = VNum (of_Z 0) /\
  invoice_of o = None.
Proof. repeat split. Qed.


(** The same run, spelled out: the two strings are numbers in the body, and
    so is a NULL quantity, written 0. *)
Example GET_items_json_values :
  let body_of (rows : list row) :=
    match payload (zod_issue:=string)
            (fst (GET to_number (answers_items rows (num 15)) never
                    (get_request "7") start)) with
    | JsonOrder o =>
        match stringify iso (order_object o) with
        | Some body =>
            match json_field "items" body with
            | Some (JArray items_json) =>
                List.map (fun j => (json_field "quantity" j,
                                    json_field "price_per_unit" j)) items_json
            | _ => []
            end
        | None => []
        end
    | _ => []
    end in
  body_of [item_row_text] = [(Some (JNumber (5 # 2)), Some (JNumber (10 # 1)))] /\
  body_of [item_row_null] = [(Some (JNumber 0), Some (JNumber (inject_Z 4)))].
Proof. split; reflexivity. Qed.


(* ================================================================== *)
(** ** Further properties: integer ids, and instances *)
(* ================================================================== *)

(** X12.  No integer id is turned down by the id check: when the path id is
    an optional sign followed by decimal digits (leading zeros included), GET
    does not answer 400 and PUT does not answer "ID de pedido inválido". *)
Theorem integer_id_passes_the_check {json zod_issue : Type}
    (safeParse : json -> safe_parse_result zod_issue)
    (StringToNumber : jsstring -> number)
    (query_rows : database -> stmt -> list row)
    (fails : world -> stmt -> bool)
    (req : request json) (w : world) :
  is_integer_literal (params_id req) = true ->
  status (fst (GET (zod_issue:=zod_issue) StringToNumber query_rows fails req w))
  <> 400 /\
  payload (fst (PUT safeParse query_rows fails req w))
  <> Text "ID de pedido inválido".
Proof.
  intros Hlit. pose proof (integer_literal_parses _ Hlit) as Hparse. split.
  - intros H. now apply GET_400_only_when_unparsed in H.
  - intros H. now apply PUT_invalid_id_only_when_unparsed in H.
Qed.

Lemma integer_id_passes_the_check_witness :
  status (fst (GET (zod_issue:=string) to_number (answers VNull) never
                 (get_request "-007") start)) <> 400 /\
  payload (fst (PUT validate (answers VNull) never (get_request "-007") start))
  <> Text "ID de pedido inválido".
Proof.
  apply (integer_id_passes_the_check validate to_number (answers VNull) never
           (get_request "-007") start).
  reflexivity.
Defined.

(** X4 with the third read (the trucks) rejected. *)
Lemma GET_query_failure_witness :
  GET to_number (answers (num 15)) (at_position 2) (get_request "7") start
  = (text_response (zod_issue:=string) "Error interno del servidor" 500,
     {| db := stored;
        trace := [] ++ List.map Query (firstn 3 (get_script 7))
                 ++ [ConsoleError "[API_ORDERS_ID_GET]"] |}).
Proof.
  apply (GET_query_failure to_number (answers (num 15)) (at_position 2)
           (get_request "7") start 7 2).
  - reflexivity.
  - reflexivity.
  - right. discriminate.
Defined.

(** X5 with a second header row behind the first. *)
Lemma GET_uses_first_header_row_witness :
  GET (zod_issue:=string) to_number (answers_two_headers (num 15)) never
    (get_request "7") start
  = GET to_number (answers (num 15)) never (get_request "7") start.
Proof.
  apply (GET_uses_first_header_row to_number (answers (num 15)) never
           (get_request "7") start 7 (answers_two_headers (num 15))).
  - reflexivity.
  - reflexivity.
  - intros s Hs. destruct s as [i| | | | | | | | | |]; try reflexivity.
    unfold answers_two_headers. destruct (i =? 7) eqn:E; [|reflexivity].
    apply Z.eqb_eq in E. subst i. now contradiction Hs.
Defined.

(** X6 on ["7"] followed by ["abc"]. *)
Lemma id_suffix_ignored_witness :
  GET (zod_issue:=string) to_number (answers (num 15)) never
    {| params_id := str "7" ++ 97%N :: str "bc";
       request_json := Some (Some new_payload) |} start
  = GET to_number (answers (num 15)) never
      {| params_id := str "7"; request_json := Some (Some new_payload) |} start /\
  PUT validate (answers (num 15)) never
    {| params_id := str "7" ++ 97%N :: str "bc";
       request_json := Some (Some new_payload) |} start
  = PUT validate (answers (num 15)) never
      {| params_id := str "7"; request_json := Some (Some new_payload) |} start.
Proof.
  apply (id_suffix_ignored validate to_number (answers (num 15)) never
           (str "7") 97%N (str "bc") (Some (Some new_payload)) start);
    reflexivity.
Defined.

(** X7 on the spec's example: the header of order 7 is rewritten, the one of
    order 8 is not. *)
Lemma PUT_updates_header_witness :
  let d' := db (snd (PUT validate (answers VNull) never
                       (put_request "7" new_payload) start)) in
  pedidos d' = List.map (update_pedido 7 header 200) (pedidos stored) /\
  (forall p, In p (pedidos d') -> p_id p = 7 ->
             p_data p = header /\ p_updated_at p = 200) /\
  (forall p, In p (pedidos d') -> p_id p <> 7 -> In p (pedidos stored)).
Proof.
  apply (PUT_updates_header validate (answers VNull) never
           (put_request "7" new_payload) start 7 (Some new_payload) new_payload);
    reflexivity.
Defined.

(** X9 on the spec's example: order 8 keeps its rows while order 7 is
    rewritten. *)
Lemma PUT_leaves_other_orders_witness :
  let d' := db (snd (PUT validate (answers VNull) never
                       (put_request "7" new_payload) start)) in
  order_items d' 8 = order_items stored 8 /\
  order_trucks d' 8 = order_trucks stored 8 /\
  order_drivers d' 8 = order_drivers stored 8 /\
  filter (fun p => p_id p =? 8) (pedidos d')
  = filter (fun p => p_id p =? 8) (pedidos stored).
Proof.
  apply (PUT_leaves_other_orders validate (answers VNull) never
           (put_request "7" new_payload) start 8).
  discriminate.
Defined.

(** X10 on order 9, which has no header row. *)
Lemma PUT_on_missing_order_witness :
  let r := PUT validate (answers VNull) never (put_request "9" new_payload) start in
  status (fst r) = 200 /\
  pedidos (db (snd r)) = pedidos stored /\
  order_items (db (snd r)) 9 = [kg_item] /\
  order_trucks (db (snd r)) 9 = [num 5] /\
  order_drivers (db (snd r)) 9 = [num 9].
Proof.
  apply (PUT_on_missing_order validate (answers VNull) never
           (put_request "9" new_payload) start 9 (Some new_payload) new_payload);
    try reflexivity.
  repeat constructor; discriminate.
Defined.

(** X11 with the INSERT of the second item rejected (position 3): the order
    holds the first submitted item, and its old trucks and driver. *)
Lemma PUT_failure_partial_collections_witness :
  let d' := db (snd (PUT validate (answers VNull) (at_position 3)
                       (put_request "7" two_items_payload) start)) in
  order_items d' 7 = [kg_item] /\
  order_trucks d' 7 = [num 1; num 3] /\
  order_drivers d' 7 = [num 6].
Proof.
  apply (PUT_failure_partial_collections validate (answers VNull) (at_position 3)
           (put_request "7" two_items_payload) start 7
           (Some two_items_payload) two_items_payload 3);
    reflexivity.
Defined.
